(** * kdbus receiver buffer: slot allocator, page pinning and windowed copy

    A shallow embedding of [buffer.c]:
    - [kdbus_buffer_alloc] / [kdbus_buffer_free], the bump allocator over the
      buffer a receiver registered;
    - [kdbus_buffer_map_open] / [kdbus_buffer_map_close], pinning of the
      receiver's pages;
    - [kdbus_buffer_map_write], the page by page copy into the pinned pages.

    C integers are [Z] values with the wrap-around of their type written out
    (LP64: [size_t], [unsigned long] and pointers have 64 bits, [unsigned int]
    and [int] have 32).  Kernel services the file calls ([kmalloc],
    [get_task_mm], [get_user_pages], [put_page], [copy_from_user], ...) act
    on an explicit [kernel] state; their nondeterministic results are handed
    to the model as an [env] record. *)

From Stdlib Require Import ZArith List Lia Bool.
From Stdlib Require Import Strings.Byte.
Import ListNotations.
Local Open Scope Z_scope.

(** ** Machine integers *)

Definition SIZE_MAX : Z := 2 ^ 64 - 1.
Definition UINT_MAX : Z := 2 ^ 32 - 1.

(** Value of an expression of type [size_t] / [unsigned long] / pointer. *)
Definition size_t (x : Z) : Z := x mod 2 ^ 64.
(** Value of an expression of type [unsigned int]. *)
Definition uint (x : Z) : Z := x mod 2 ^ 32.

(** Value of an [unsigned int] converted to [int]. *)
Definition int_of_uint (x : Z) : Z := if x <? 2 ^ 31 then x else x - 2 ^ 32.

Definition NULL : Z := 0.

(** Modelled from the spec: [KDBUS_ALIGN8] is a macro of the repository's
    internal.h, a header that is not among the files modelled here; the
    spec says that allocation "rounds the current cursor up to 8-byte
    alignment".  It is the usual [(x + 7) & ~7], computed in the type of its
    argument. *)
Definition KDBUS_ALIGN8 (x : Z) : Z := Z.land (size_t (x + 7)) (Z.lnot 7).

(** The mathematical round-up, for comparison. *)
Definition round_up8 (x : Z) : Z := 8 * ((x + 7) / 8).

(** ** The receiver buffer *)

Record kdbus_buffer : Type := mk_buffer {
  buf : Z;      (* receiver-supplied buffer (user address) *)
  size : Z;     (* size of buffer *)
  pos : Z;      (* current write position *)
  users : Z     (* number of slots handed out and not yet freed *)
}.

Definition wf_buffer (b : kdbus_buffer) : Prop :=
  0 <= buf b <= SIZE_MAX /\ 0 <= size b <= SIZE_MAX /\
  0 <= pos b <= SIZE_MAX /\ 0 <= users b <= UINT_MAX.

(** [kdbus_buffer_alloc]: the new buffer state and the returned pointer
    ([NULL] when the slot does not fit). *)
Definition kdbus_buffer_alloc (b : kdbus_buffer) (len : Z) : kdbus_buffer * Z :=
  let p := KDBUS_ALIGN8 (pos b) in
  if size_t (p + len) >? size b then (b, NULL)
  else
    (mk_buffer (buf b) (size b) (size_t (p + len)) (uint (users b + 1)),
     size_t (buf b + p)).

(** Result of a function that can hit a [BUG_ON]. *)
Inductive outcome (A : Type) : Type :=
| Done (a : A)
| Bug.
Arguments Done {A} a.
Arguments Bug {A}.

(** [kdbus_buffer_free]. *)
Definition kdbus_buffer_free (b : kdbus_buffer) (msg : Z) : outcome kdbus_buffer :=
  if msg =? NULL then Done b
  else if users b =? 0 then Bug
  else
    let u := uint (users b - 1) in
    if u =? 0 then Done (mk_buffer (buf b) (size b) 0 u)
    else Done (mk_buffer (buf b) (size b) (pos b) u).

(** A buffer as registered by a connection: nothing allocated yet. *)
Definition fresh (base sz : Z) : kdbus_buffer := mk_buffer base sz 0 0.

(** The receiver's range lies in the address space and does not start at
    address zero. *)
Definition valid_user_range (base sz : Z) : Prop :=
  0 < base /\ 0 <= sz /\ base + sz <= 2 ^ 64.

(** ** Sequences of allocator calls *)

Inductive op : Type :=
| Alloc (len : Z)
| Free (msg : Z).

(** One call; [None] when the call runs into the [BUG_ON]. *)
Definition step (b : kdbus_buffer) (o : op) : option kdbus_buffer :=
  match o with
  | Alloc len => Some (fst (kdbus_buffer_alloc b len))
  | Free msg =>
      match kdbus_buffer_free b msg with
      | Done b' => Some b'
      | Bug => None
      end
  end.

(** The transitions [(before, call, after)] of a sequence of calls, [None]
    when one of them runs into the [BUG_ON]. *)
Fixpoint transitions (b : kdbus_buffer) (ops : list op)
  : option (list (kdbus_buffer * op * kdbus_buffer)) :=
  match ops with
  | [] => Some []
  | o :: ops' =>
      match step b o with
      | None => None
      | Some b' =>
          match transitions b' ops' with
          | None => None
          | Some ts => Some ((b, o, b') :: ts)
          end
      end
  end.

(** The state after a sequence of calls. *)
Fixpoint run (b : kdbus_buffer) (ops : list op) : option kdbus_buffer :=
  match ops with
  | [] => Some b
  | o :: ops' =>
      match step b o with
      | None => None
      | Some b' => run b' ops'
      end
  end.

(** The slots [(offset, length)] handed out by a sequence of calls, oldest
    first: a call [Alloc len] that returns a non-[NULL] pointer hands out
    the slot that starts at the aligned cursor.  [None] when a call runs
    into the [BUG_ON]. *)
Fixpoint slots (b : kdbus_buffer) (ops : list op) : option (list (Z * Z)) :=
  match ops with
  | [] => Some []
  | o :: ops' =>
      match step b o with
      | None => None
      | Some b' =>
          match slots b' ops' with
          | None => None
          | Some sl =>
              match o with
              | Alloc len =>
                  if snd (kdbus_buffer_alloc b len) =? NULL then Some sl
                  else Some ((KDBUS_ALIGN8 (pos b), len) :: sl)
              | Free _ => Some sl
              end
          end
      end
  end.

(** Byte ranges [[o1, o1 + l1)] and [[o2, o2 + l2)] have no byte in common. *)
Definition disjoint (s1 s2 : Z * Z) : Prop :=
  forall x, ~ (fst s1 <= x < fst s1 + snd s1 /\ fst s2 <= x < fst s2 + snd s2).

(** ** Kernel state and services *)

(** A [struct page *]. *)
Definition page : Type := Z.

(** One windowed copy: the page mapped, the position in the page and the
    bytes that reached the page. *)
Record copy_op : Type := mk_copy {
  cp_page : page;
  cp_pos : Z;
  cp_data : list byte
}.

Record kernel : Type := mk_kernel {
  pins : list page;      (* page references taken by get_user_pages and not
                            yet dropped by put_page, one entry each *)
  kmalloced : Z;         (* page arrays obtained from kmalloc, not yet freed *)
  mm_users : Z;          (* references taken by get_task_mm, not yet mmput *)
  copied : list copy_op  (* copies into mapped pages, oldest first *)
}.

(** Kernel code: a state transformer that may have no defined result (a read
    outside an array, a reference dropped that is not held, a loop out of
    fuel). *)
Definition K (A : Type) : Type := kernel -> option (A * kernel).

Definition ret {A : Type} (a : A) : K A := fun k => Some (a, k).
Definition undef {A : Type} : K A := fun _ => None.
Definition bind {A B : Type} (c : K A) (f : A -> K B) : K B :=
  fun k => match c k with
           | Some (a, k') => f a k'
           | None => None
           end.

Notation "x <- c ;; f" := (bind c (fun x => f))
  (at level 61, c at next level, right associativity).
Notation "c ;;; f" := (bind c (fun _ => f))
  (at level 61, right associativity).

Definition ENOMEM : Z := 12.
Definition EFAULT : Z := 14.
Definition ESHUTDOWN : Z := 108.

(** What the kernel answers during one [kdbus_buffer_map_open]. *)
Inductive gup_result : Type :=
| GupErr (e : Z)                (* negative errno, nothing pinned *)
| GupPinned (pgs : list page).  (* the pages pinned, in address order *)

Record env : Type := mk_env {
  kmalloc_ok : bool;     (* kmalloc returns memory *)
  task_has_mm : bool;    (* get_task_mm returns an mm *)
  gup : gup_result       (* outcome of get_user_pages *)
}.

(** [kmalloc] of a page array: [None] is [NULL], [Some []] an array none of
    whose entries is initialised yet. *)
Definition kmalloc (ok : bool) : K (option (list page)) :=
  fun k =>
    if ok then
      Some (Some [], mk_kernel (pins k) (kmalloced k + 1) (mm_users k) (copied k))
    else Some (None, k).

(** [kfree]; [kfree(NULL)] does nothing. *)
Definition kfree (p : option (list page)) : K unit :=
  fun k =>
    match p with
    | None => Some (tt, k)
    | Some _ =>
        if 0 <? kmalloced k then
          Some (tt, mk_kernel (pins k) (kmalloced k - 1) (mm_users k) (copied k))
        else None
    end.

Definition get_task_mm (alive : bool) : K bool :=
  fun k =>
    if alive then
      Some (true, mk_kernel (pins k) (kmalloced k) (mm_users k + 1) (copied k))
    else Some (false, k).

Definition mmput : K unit :=
  fun k =>
    if 0 <? mm_users k then
      Some (tt, mk_kernel (pins k) (kmalloced k) (mm_users k - 1) (copied k))
    else None.

(** Drop the first occurrence of [pg]. *)
Fixpoint drop_pin (pg : page) (l : list page) : option (list page) :=
  match l with
  | [] => None
  | x :: l' =>
      if x =? pg then Some l'
      else match drop_pin pg l' with
           | Some r => Some (x :: r)
           | None => None
           end
  end.

Definition put_page (pg : page) : K unit :=
  fun k =>
    match drop_pin pg (pins k) with
    | Some l => Some (tt, mk_kernel l (kmalloced k) (mm_users k) (copied k))
    | None => None
    end.

(** [get_user_pages] for [nr] pages, an [int] argument: the number of
    pages pinned (or the negative errno) and the entries written to the page
    array.  It pins no more than [nr] pages, and none when [nr] is not
    positive. *)
Definition get_user_pages (r : gup_result) (nr : Z) : K (Z * list page) :=
  fun k =>
    match r with
    | GupErr e => Some ((e, []), k)
    | GupPinned pgs =>
        let got := firstn (Z.to_nat nr) pgs in
        Some ((Z.of_nat (length got), got),
              mk_kernel (got ++ pins k) (kmalloced k) (mm_users k) (copied k))
    end.

(** Bytes readable in the sender's memory from address [a] on, at most
    [cnt] of them, up to the first address that faults. *)
Fixpoint read_user (umem : Z -> option byte) (a : Z) (cnt : nat) : list byte :=
  match cnt with
  | O => []
  | S c =>
      match umem a with
      | None => []
      | Some x => x :: read_user umem (size_t (a + 1)) c
      end
  end.

(** [copy_from_user] into page [pg] at position [off]: the bytes up to the
    first fault reach the page, nothing is written behind them; the result
    is the number of bytes not copied. *)
Definition copy_from_user (umem : Z -> option byte) (pg : page) (off from bytes : Z)
  : K Z :=
  fun k =>
    let data := read_user umem from (Z.to_nat bytes) in
    Some (bytes - Z.of_nat (length data),
          mk_kernel (pins k) (kmalloced k) (mm_users k)
                    (copied k ++ [mk_copy pg off data])).

(** ** The pinned page set *)

Record kdbus_buffer_map : Type := mk_map {
  map_pages : option (list page);  (* array of pages representing the buffer *)
  map_n : Z;                       (* number of pages in the array *)
  map_cur : Z;                     (* current page we write to *)
  map_pos : Z                      (* position in current page we write to *)
}.

(** [buf->pages[i]]. *)
Definition page_at (m : kdbus_buffer_map) (i : Z) : K page :=
  match map_pages m with
  | None => undef
  | Some arr =>
      match nth_error arr (Z.to_nat i) with
      | Some pg => ret pg
      | None => undef
      end
  end.

(** The loop of [kdbus_buffer_map_close]: [todo] iterations are left, the
    next one is for index [i]. *)
Fixpoint put_pages (m : kdbus_buffer_map) (i : Z) (todo : nat) : K unit :=
  match todo with
  | O => ret tt
  | S t => pg <- page_at m i ;; put_page pg ;;; put_pages m (uint (i + 1)) t
  end.

(** [kdbus_buffer_map_close]: unpin the receiver's pages. *)
Definition kdbus_buffer_map_close (m : kdbus_buffer_map) : K unit :=
  put_pages m 0 (Z.to_nat (map_n m)) ;;; kfree (map_pages m).

Section Pages.

(** [PAGE_SIZE] comes from the architecture's headers. *)
Variable PAGE_SIZE : Z.

Definition PAGE_MASK : Z := size_t (Z.lnot (PAGE_SIZE - 1)).

(** The number of pages involved in the range, as [kdbus_buffer_map_open]
    computes it into an [unsigned int]. *)
Definition page_count (addr len : Z) : Z :=
  uint (size_t (size_t (addr + len - 1) / PAGE_SIZE - addr / PAGE_SIZE + 1)).

(** [kdbus_buffer_map_open]: pin the receiver's memory range.  The [memset]
    at its head clears [sizeof(struct kdbus_buffer)] bytes, which is the
    size of [struct kdbus_buffer_map] too (four words each), so the fields
    of [map] all start at zero and its former content is of no account. *)
Definition kdbus_buffer_map_open (e : env) (to len : Z) : K (Z * kdbus_buffer_map) :=
  let addr := size_t to in
  let n := page_count addr len in
  pages <- kmalloc (kmalloc_ok e) ;;
  match pages with
  | None => ret (- ENOMEM, mk_map None 0 0 0)
  | Some _ =>
      let base := Z.land addr PAGE_MASK in
      let m1 := mk_map pages 0 0 (size_t (addr - base)) in
      mm <- get_task_mm (task_has_mm e) ;;
      if negb mm then
        kdbus_buffer_map_close m1 ;;; ret (- ESHUTDOWN, m1)
      else
        r <- get_user_pages (gup e) (int_of_uint n) ;;
        mmput ;;;
        let have := fst r in
        let m2 := mk_map (Some (snd r)) 0 0 (map_pos m1) in
        if have <? 0 then
          kdbus_buffer_map_close m2 ;;; ret (have, m2)
        else
          let m3 := mk_map (map_pages m2) (uint have) 0 (map_pos m2) in
          if map_n m3 <? n then
            kdbus_buffer_map_close m3 ;;; ret (- EFAULT, m3)
          else ret (0, m3)
  end.

(** The loop of [kdbus_buffer_map_write]; [from] is the same in every
    iteration, as in the source. *)
Fixpoint write_loop (fuel : nat) (umem : Z -> option byte)
    (m : kdbus_buffer_map) (from len : Z) : K (Z * kdbus_buffer_map) :=
  if len >? 0 then
    match fuel with
    | O => undef
    | S fuel' =>
        let bytes := Z.min (size_t (PAGE_SIZE - map_pos m)) len in
        pg <- page_at m (map_cur m) ;;
        left <- copy_from_user umem pg (map_pos m) from bytes ;;
        if negb (left =? 0) then ret (- EFAULT, m)
        else
          let m1 := mk_map (map_pages m) (map_n m) (map_cur m)
                           (size_t (map_pos m + bytes)) in
          let m2 := if map_pos m1 =? PAGE_SIZE
                    then mk_map (map_pages m1) (map_n m1) (size_t (map_cur m1 + 1)) 0
                    else m1 in
          write_loop fuel' umem m2 from (size_t (len - bytes))
    end
  else ret (0, m).

(** [kdbus_buffer_map_write]: copy a memory range from the current user
    process page by page into the pinned receiver's buffer. *)
Definition kdbus_buffer_map_write (umem : Z -> option byte)
    (m : kdbus_buffer_map) (from len : Z) : K (Z * kdbus_buffer_map) :=
  write_loop (S (Z.to_nat len)) umem m from len.

(** The sizes of the windows a write of [len] bytes from position [p] of a
    page is cut into: [min (PAGE_SIZE - p) len] first, whole pages after
    it. *)
Fixpoint chunk_sizes (fuel : nat) (p len : Z) : list Z :=
  match fuel with
  | O => []
  | S fuel' =>
      if len >? 0 then
        let bytes := Z.min (PAGE_SIZE - p) len in
        bytes :: chunk_sizes fuel' (if p + bytes =? PAGE_SIZE then 0 else p + bytes)
                             (len - bytes)
      else []
  end.

(** Page boundaries strictly inside a write of [len] bytes that starts at
    position [p] of a page. *)
Definition boundaries_spanned (p len : Z) : Z := (p + len - 1) / PAGE_SIZE.

End Pages.

(** ** Inputs of the worked examples *)

(** An idle kernel: nothing pinned, nothing allocated, nothing copied. *)
Definition idle_kernel : kernel := mk_kernel [] 0 0 [].

(** Sender memory with [readable] bytes mapped from address [start] on;
    the byte at offset [i] is [i mod 251]. *)
Definition sender_mem (start readable : Z) (a : Z) : option byte :=
  if (start <=? a) && (a <? start + readable)
  then Byte.of_N (Z.to_N ((a - start) mod 251))
  else None.

(** The pin succeeds in full for a range of two, respectively three pages;
    in [env_short] only one of two pages can be pinned. *)
Definition env_two_pages : env := mk_env true true (GupPinned [11; 12]).
Definition env_three_pages : env := mk_env true true (GupPinned [11; 12; 13]).
Definition env_short : env := mk_env true true (GupPinned [11]).

(** A kernel with pins of several page sets and two page arrays alive. *)
Definition busy_kernel : kernel := mk_kernel [21; 12; 22; 11; 11] 2 0 [].

(** * Properties *)

(** ** Machine integers and alignment *)

Lemma size_t_small (x : Z) : 0 <= x <= SIZE_MAX -> size_t x = x.
Proof. unfold size_t, SIZE_MAX. intros H. apply Z.mod_small. lia. Qed.

Lemma uint_small (x : Z) : 0 <= x <= UINT_MAX -> uint x = x.
Proof. unfold uint, UINT_MAX. intros H. apply Z.mod_small. lia. Qed.

Lemma size_t_range (x : Z) : 0 <= size_t x <= SIZE_MAX.
Proof.
  unfold size_t, SIZE_MAX.
  assert (H := Z.mod_pos_bound x (2 ^ 64) ltac:(lia)). lia.
Qed.

Lemma uint_range (x : Z) : 0 <= uint x <= UINT_MAX.
Proof.
  unfold uint, UINT_MAX.
  assert (H := Z.mod_pos_bound x (2 ^ 32) ltac:(lia)). lia.
Qed.

Lemma land_lnot7 (a : Z) : Z.land a (Z.lnot 7) = 8 * (a / 8).
Proof.
  rewrite <- Z.ldiff_land.
  change 7 with (Z.ones 3).
  rewrite Z.ldiff_ones_r by lia.
  rewrite Z.shiftr_div_pow2, Z.shiftl_mul_pow2 by lia.
  change (2 ^ 3) with 8. lia.
Qed.

Lemma align8_eq (x : Z) : KDBUS_ALIGN8 x = 8 * (size_t (x + 7) / 8).
Proof. unfold KDBUS_ALIGN8. apply land_lnot7. Qed.

Lemma align8_mod8 (x : Z) : KDBUS_ALIGN8 x mod 8 = 0.
Proof. rewrite align8_eq. rewrite Z.mul_comm. apply Z.mod_mul. lia. Qed.

Lemma align8_round_up (x : Z) :
  0 <= x -> x + 7 <= SIZE_MAX -> KDBUS_ALIGN8 x = round_up8 x.
Proof.
  intros H0 H1. rewrite align8_eq. unfold round_up8, size_t, SIZE_MAX in *.
  rewrite Z.mod_small by lia. reflexivity.
Qed.

Lemma round_up8_bounds (x : Z) : x <= round_up8 x < x + 8 /\ round_up8 x mod 8 = 0.
Proof.
  unfold round_up8. split.
  - assert (H := Z.div_mod (x + 7) 8 ltac:(lia)).
    assert (H' := Z.mod_pos_bound (x + 7) 8 ltac:(lia)). lia.
  - rewrite Z.mul_comm. apply Z.mod_mul. lia.
Qed.

Lemma round_up8_fits (x len : Z) :
  0 <= len -> round_up8 x + len <= SIZE_MAX -> x + 7 <= SIZE_MAX.
Proof.
  unfold round_up8, SIZE_MAX. intros Hl H.
  assert (Hd := Z.div_mod (x + 7) 8 ltac:(lia)).
  assert (Hm := Z.mod_pos_bound (x + 7) 8 ltac:(lia)).
  lia.
Qed.

(** ** The slot allocator *)

(** *** Allocation when the sum does not wrap around *)

Lemma alloc_rejects (b : kdbus_buffer) (len : Z) :
  0 <= pos b -> 0 <= len -> round_up8 (pos b) + len <= SIZE_MAX ->
  size b < round_up8 (pos b) + len ->
  kdbus_buffer_alloc b len = (b, NULL).
Proof.
  intros Hp Hl Hfit Hbig.
  destruct (round_up8_bounds (pos b)) as [Hr _].
  unfold kdbus_buffer_alloc.
  rewrite align8_round_up by (try lia; eapply round_up8_fits; eassumption).
  rewrite size_t_small by lia.
  destruct (Z.gtb_spec (round_up8 (pos b) + len) (size b)); [reflexivity | lia].
Qed.

Lemma alloc_accepts (b : kdbus_buffer) (len : Z) :
  0 <= pos b -> 0 <= len -> round_up8 (pos b) + len <= SIZE_MAX ->
  0 <= users b < UINT_MAX ->
  round_up8 (pos b) + len <= size b ->
  kdbus_buffer_alloc b len =
    (mk_buffer (buf b) (size b) (round_up8 (pos b) + len) (users b + 1),
     size_t (buf b + round_up8 (pos b))).
Proof.
  intros Hp Hl Hfit Hu Hok.
  destruct (round_up8_bounds (pos b)) as [Hr _].
  unfold kdbus_buffer_alloc.
  rewrite align8_round_up by (try lia; eapply round_up8_fits; eassumption).
  rewrite size_t_small by lia.
  rewrite uint_small by lia.
  destruct (Z.gtb_spec (round_up8 (pos b) + len) (size b)); [lia | reflexivity].
Qed.

(** Whatever the length, the cursor an accepted allocation stores is the
    value that passed the bound check. *)
Lemma alloc_cursor_le_size (b : kdbus_buffer) (len : Z) :
  pos b <= size b ->
  pos (fst (kdbus_buffer_alloc b len)) <= size (fst (kdbus_buffer_alloc b len)).
Proof.
  intros H. unfold kdbus_buffer_alloc.
  destruct (Z.gtb_spec (size_t (KDBUS_ALIGN8 (pos b) + len)) (size b)); simpl; lia.
Qed.

Lemma alloc_size (b : kdbus_buffer) (len : Z) :
  size (fst (kdbus_buffer_alloc b len)) = size b.
Proof.
  unfold kdbus_buffer_alloc.
  destruct (_ >? _); reflexivity.
Qed.

(** The cursor moves forward when neither the rounding nor the sum can wrap
    around. *)
Lemma alloc_monotone (b : kdbus_buffer) (len : Z) :
  0 <= pos b <= size b -> size b + 7 + len <= SIZE_MAX -> 0 <= len ->
  pos b <= pos (fst (kdbus_buffer_alloc b len)) /\
  (snd (kdbus_buffer_alloc b len) <> NULL ->
     pos b <= KDBUS_ALIGN8 (pos b) /\
     pos (fst (kdbus_buffer_alloc b len)) = KDBUS_ALIGN8 (pos b) + len).
Proof.
  intros Hp Hfit Hl.
  destruct (round_up8_bounds (pos b)) as [Hr _].
  assert (Ha : KDBUS_ALIGN8 (pos b) = round_up8 (pos b))
    by (apply align8_round_up; lia).
  unfold kdbus_buffer_alloc. rewrite Ha.
  rewrite size_t_small by lia.
  destruct (_ >? _); simpl; split; lia.
Qed.

(** *** Release *)

Lemma free_done (b b' : kdbus_buffer) (msg : Z) :
  kdbus_buffer_free b msg = Done b' ->
  buf b' = buf b /\ size b' = size b /\
  (b' = b \/
   msg <> NULL /\ users b <> 0 /\ users b' = uint (users b - 1) /\
   (users b' = 0 -> pos b' = 0) /\ (users b' <> 0 -> pos b' = pos b)).
Proof.
  unfold kdbus_buffer_free.
  destruct (Z.eqb_spec msg NULL) as [-> | Hm].
  - intros [= <-]. auto.
  - destruct (Z.eqb_spec (users b) 0) as [Hu | Hu]; [discriminate |].
    destruct (Z.eqb_spec (uint (users b - 1)) 0) as [Hz | Hz]; intros [= <-]; simpl;
      repeat split; auto; right; repeat split; auto; intros; congruence.
Qed.

Lemma free_nonnull (b : kdbus_buffer) (msg : Z) :
  msg <> NULL -> 0 < users b <= UINT_MAX ->
  kdbus_buffer_free b msg =
    Done (mk_buffer (buf b) (size b) (if users b =? 1 then 0 else pos b) (users b - 1)).
Proof.
  intros Hm Hu. unfold kdbus_buffer_free.
  destruct (Z.eqb_spec msg NULL); [contradiction |].
  destruct (Z.eqb_spec (users b) 0); [lia |].
  rewrite uint_small by lia.
  destruct (Z.eqb_spec (users b - 1) 0), (Z.eqb_spec (users b) 1); try lia; reflexivity.
Qed.

Lemma free_reset_iff (s s' : kdbus_buffer) (msg : Z) :
  kdbus_buffer_free s msg = Done s' ->
  (users s <> 0 /\ users s' = 0 -> pos s' = 0) /\
  (~ (users s <> 0 /\ users s' = 0) -> pos s' = pos s).
Proof.
  intros E. destruct (free_done _ _ _ E) as (_ & _ & [-> | (_ & Hn & Hu & H0 & H1)]).
  - split; [intros [Ha Hb]; contradiction | reflexivity].
  - split; [intros [_ Hz]; auto |].
    intros Hnot. apply H1. intros Hz. apply Hnot. split; assumption.
Qed.

(** *** Claims on single calls *)

(** C1, the code at the failing input: on a buffer of 4096 bytes with the
    cursor at 8 (the state after allocate(8) on a fresh buffer) a request
    for [2^64 - 8] bytes must fail, the aligned cursor plus the length
    being [2^64], far beyond the size.  But [pos + len] is computed in
    [size_t], comes out as 0 and passes [pos + len > buf->size]: the slot is
    handed out at offset 8, the cursor is set to 0 and the count goes up. *)
Theorem alloc_accepts_wrapped_sum :
  run (fresh 65536 4096) [Alloc 8] = Some (mk_buffer 65536 4096 8 1) /\
  wf_buffer (mk_buffer 65536 4096 8 1) /\
  0 <= 2 ^ 64 - 8 <= SIZE_MAX /\
  KDBUS_ALIGN8 8 = 8 /\
  8 + (2 ^ 64 - 8) > 4096 /\
  kdbus_buffer_alloc (mk_buffer 65536 4096 8 1) (2 ^ 64 - 8) =
    (mk_buffer 65536 4096 0 2, 65536 + 8).
Proof.
  unfold wf_buffer, SIZE_MAX, UINT_MAX. simpl.
  repeat split; try lia; vm_compute; congruence.
Qed.

(** The count is an [unsigned int]: with [UINT_MAX] slots outstanding one
    more allocation takes it to 0. *)
Example alloc_count_wraps :
  kdbus_buffer_alloc (mk_buffer 65536 4096 0 (2 ^ 32 - 1)) 0 =
    (mk_buffer 65536 4096 0 0, 65536).
Proof. vm_compute. reflexivity. Qed.

(** X18: for every buffer with fields in range and every length such that
    the aligned cursor plus the length is representable in [size_t], with
    fewer than [UINT_MAX] slots outstanding, allocate rounds
    the cursor up to the next multiple of 8; it returns [NULL] and leaves
    the buffer unchanged when the aligned cursor plus the length exceeds the
    size; otherwise it sets the cursor to aligned cursor plus length, adds
    one to the count and returns the buffer address plus the aligned
    cursor. *)
Theorem alloc_spec (b : kdbus_buffer) (len : Z) :
  wf_buffer b -> 0 <= len ->
  round_up8 (pos b) + len <= SIZE_MAX -> users b < UINT_MAX ->
  KDBUS_ALIGN8 (pos b) = round_up8 (pos b) /\
  pos b <= round_up8 (pos b) < pos b + 8 /\
  round_up8 (pos b) mod 8 = 0 /\
  (size b < round_up8 (pos b) + len ->
     kdbus_buffer_alloc b len = (b, NULL)) /\
  (round_up8 (pos b) + len <= size b ->
     kdbus_buffer_alloc b len =
       (mk_buffer (buf b) (size b) (round_up8 (pos b) + len) (users b + 1),
        size_t (buf b + round_up8 (pos b)))).
Proof.
  intros (Hb & Hs & Hp & Hu) Hl Hfit Hu'.
  destruct (round_up8_bounds (pos b)) as [Hr Hm].
  split; [apply align8_round_up; [lia | eapply round_up8_fits; eassumption] |].
  split; [exact Hr |]. split; [exact Hm |].
  split; intros H.
  - apply alloc_rejects; lia.
  - apply alloc_accepts; lia.
Qed.

Lemma alloc_spec_witness :
  kdbus_buffer_alloc (mk_buffer 65536 4096 100 1) 100 =
    (mk_buffer 65536 4096 204 2, 65536 + 104).
Proof.
  assert (Hwf : wf_buffer (mk_buffer 65536 4096 100 1))
    by (unfold wf_buffer, SIZE_MAX, UINT_MAX; simpl; lia).
  assert (Hfit : round_up8 (pos (mk_buffer 65536 4096 100 1)) + 100 <= SIZE_MAX)
    by (vm_compute; discriminate).
  assert (Hu : users (mk_buffer 65536 4096 100 1) < UINT_MAX)
    by (vm_compute; reflexivity).
  destruct (alloc_spec (mk_buffer 65536 4096 100 1) 100 Hwf ltac:(lia) Hfit Hu)
    as (_ & _ & _ & _ & H).
  rewrite H by (vm_compute; discriminate).
  vm_compute. reflexivity.
Defined.

(** C2: release with a [NULL] handle does nothing; with another handle and
    no slot outstanding it runs into the [BUG_ON]; otherwise it takes one
    off the count, sets the cursor to 0 when the count reaches 0 and leaves
    the cursor alone when it does not. *)
Theorem free_spec (b : kdbus_buffer) (msg : Z) :
  0 <= users b <= UINT_MAX ->
  (msg = NULL -> kdbus_buffer_free b msg = Done b) /\
  (msg <> NULL -> users b = 0 -> kdbus_buffer_free b msg = Bug) /\
  (msg <> NULL -> users b <> 0 ->
     exists b', kdbus_buffer_free b msg = Done b' /\
       buf b' = buf b /\ size b' = size b /\
       users b' = users b - 1 /\
       (users b' = 0 -> pos b' = 0) /\
       (users b' <> 0 -> pos b' = pos b)).
Proof.
  intros Hu. repeat split.
  - intros ->. reflexivity.
  - intros Hm H0. unfold kdbus_buffer_free.
    destruct (Z.eqb_spec msg NULL); [contradiction |].
    rewrite H0. reflexivity.
  - intros Hm H0. rewrite free_nonnull by lia.
    eexists. split; [reflexivity |]. simpl.
    destruct (Z.eqb_spec (users b) 1); repeat split; auto; lia.
Qed.

Lemma free_spec_witness :
  kdbus_buffer_free (mk_buffer 65536 4096 204 2) 0 = Done (mk_buffer 65536 4096 204 2) /\
  kdbus_buffer_free (mk_buffer 65536 4096 0 0) 65536 = Bug.
Proof.
  split.
  - apply (free_spec (mk_buffer 65536 4096 204 2) 0).
    + unfold UINT_MAX; simpl; lia.
    + reflexivity.
  - apply (free_spec (mk_buffer 65536 4096 0 0) 65536).
    + unfold UINT_MAX; simpl; lia.
    + vm_compute; discriminate.
    + reflexivity.
Defined.

(** C10: with a slot outstanding, release does the same for any two
    non-[NULL] handles, whether allocate ever returned them or not: one off
    the count, and the cursor back to 0 if that was the last slot. *)
Theorem free_ignores_handle_value (b : kdbus_buffer) (m1 m2 : Z) :
  0 < users b <= UINT_MAX -> m1 <> NULL -> m2 <> NULL ->
  kdbus_buffer_free b m1 = kdbus_buffer_free b m2 /\
  kdbus_buffer_free b m1 =
    Done (mk_buffer (buf b) (size b) (if users b =? 1 then 0 else pos b) (users b - 1)).
Proof.
  intros Hu H1 H2.
  rewrite (free_nonnull b m1), (free_nonnull b m2) by assumption.
  split; reflexivity.
Qed.

Lemma free_ignores_handle_value_witness :
  kdbus_buffer_free (mk_buffer 65536 4096 204 2) 65536 =
  kdbus_buffer_free (mk_buffer 65536 4096 204 2) 12345.
Proof.
  apply (free_ignores_handle_value (mk_buffer 65536 4096 204 2) 65536 12345).
  - unfold UINT_MAX; simpl; lia.
  - vm_compute; discriminate.
  - vm_compute; discriminate.
Defined.

(** C3, as stated, fails: after one allocation of 100 bytes from a fresh
    buffer the stored cursor is 100, which is no multiple of 8. *)
Lemma cursor_unaligned_after_alloc :
  exists b, run (fresh 65536 4096) [Alloc 100] = Some b /\ pos b mod 8 <> 0.
Proof.
  eexists. split; [vm_compute; reflexivity |]. vm_compute. discriminate.
Qed.

(** C3 (amended): in every buffer state the offset of a slot that allocate
    hands out (the cursor rounded up) is a multiple of 8; the stored cursor
    is that offset plus the length, and when the sum does not wrap around it
    is a multiple of 8 exactly when the length is. *)
Theorem slot_offset_aligned (b b' : kdbus_buffer) (len p : Z) :
  kdbus_buffer_alloc b len = (b', p) -> p <> NULL ->
  KDBUS_ALIGN8 (pos b) mod 8 = 0 /\
  p = size_t (buf b + KDBUS_ALIGN8 (pos b)) /\
  pos b' = size_t (KDBUS_ALIGN8 (pos b) + len) /\
  (0 <= KDBUS_ALIGN8 (pos b) + len <= SIZE_MAX -> pos b' mod 8 = len mod 8).
Proof.
  intros Ha Hp. split; [apply align8_mod8 |].
  unfold kdbus_buffer_alloc in Ha.
  destruct (_ >? _); inversion Ha; subst; [contradiction |].
  cbn [pos]. repeat split.
  intros Hfit. rewrite size_t_small by exact Hfit.
  rewrite align8_eq, Z.add_comm, Z.mul_comm. apply Z.mod_add. lia.
Qed.

Lemma slot_offset_aligned_witness :
  KDBUS_ALIGN8 100 mod 8 = 0 /\
  65536 + 104 = size_t (65536 + KDBUS_ALIGN8 100) /\
  204 = size_t (KDBUS_ALIGN8 100 + 100) /\
  (0 <= KDBUS_ALIGN8 100 + 100 <= SIZE_MAX -> 204 mod 8 = 100 mod 8).
Proof.
  apply (slot_offset_aligned (mk_buffer 65536 4096 100 1)
           (mk_buffer 65536 4096 204 2) 100 (65536 + 104)).
  - vm_compute; reflexivity.
  - vm_compute; discriminate.
Defined.

(** C6: on a fresh buffer of 4096 bytes two allocations of 100 bytes return
    the offsets 0 and 104 from the buffer address; releasing the first slot
    leaves one slot outstanding and the cursor at 204, releasing the second
    sets the cursor to 0. *)
Theorem scenario_two_slots (base : Z) :
  valid_user_range base 4096 ->
  kdbus_buffer_alloc (fresh base 4096) 100 = (mk_buffer base 4096 100 1, base + 0) /\
  kdbus_buffer_alloc (mk_buffer base 4096 100 1) 100 =
    (mk_buffer base 4096 204 2, base + 104) /\
  kdbus_buffer_free (mk_buffer base 4096 204 2) (base + 0) =
    Done (mk_buffer base 4096 204 1) /\
  kdbus_buffer_free (mk_buffer base 4096 204 1) (base + 104) =
    Done (mk_buffer base 4096 0 0).
Proof.
  intros (Hb & _ & Hend).
  assert (H0 : round_up8 0 = 0) by reflexivity.
  assert (H100 : round_up8 100 = 104) by reflexivity.
  repeat split.
  - rewrite alloc_accepts; unfold fresh, SIZE_MAX, UINT_MAX; simpl; rewrite ?H0; try lia.
    rewrite size_t_small by (unfold SIZE_MAX; lia). reflexivity.
  - rewrite alloc_accepts; unfold SIZE_MAX, UINT_MAX; simpl; rewrite ?H100; try lia.
    rewrite size_t_small by (unfold SIZE_MAX; lia). reflexivity.
  - rewrite free_nonnull; unfold NULL, UINT_MAX; simpl; try lia. reflexivity.
  - rewrite free_nonnull; unfold NULL, UINT_MAX; simpl; try lia. reflexivity.
Qed.

Lemma scenario_two_slots_witness :
  kdbus_buffer_alloc (fresh 65536 4096) 100 = (mk_buffer 65536 4096 100 1, 65536 + 0) /\
  kdbus_buffer_alloc (mk_buffer 65536 4096 100 1) 100 =
    (mk_buffer 65536 4096 204 2, 65536 + 104) /\
  kdbus_buffer_free (mk_buffer 65536 4096 204 2) (65536 + 0) =
    Done (mk_buffer 65536 4096 204 1) /\
  kdbus_buffer_free (mk_buffer 65536 4096 204 1) (65536 + 104) =
    Done (mk_buffer 65536 4096 0 0).
Proof.
  apply (scenario_two_slots 65536).
  unfold valid_user_range. lia.
Defined.

(** *** Sequences of calls *)

Lemma step_size (b b' : kdbus_buffer) (o : op) :
  step b o = Some b' -> size b' = size b.
Proof.
  destruct o as [len | msg]; simpl.
  - intros [= <-]. apply alloc_size.
  - destruct (kdbus_buffer_free b msg) eqn:E; [| discriminate].
    intros [= <-]. apply (free_done _ _ _ E).
Qed.

Lemma step_cursor_le_size (b b' : kdbus_buffer) (o : op) :
  0 <= size b -> pos b <= size b -> step b o = Some b' -> pos b' <= size b'.
Proof.
  intros Hs Hp. destruct o as [len | msg]; simpl.
  - intros [= <-]. apply alloc_cursor_le_size. exact Hp.
  - destruct (kdbus_buffer_free b msg) eqn:E; [| discriminate].
    intros [= <-]. destruct (free_done _ _ _ E) as (_ & Hsz & [-> | (_ & _ & Hu & H0 & H1)]).
    + exact Hp.
    + rewrite Hsz. destruct (Z.eq_dec (users a) 0) as [Hz | Hz].
      * rewrite (H0 Hz). exact Hs.
      * rewrite (H1 Hz). exact Hp.
Qed.

(** X19: along every sequence of allocate and release calls on a fresh
    buffer that never runs into the [BUG_ON] (no release without a slot
    outstanding), the cursor stays within the size after every call, also
    when a sum wrapped around; and a release sets the cursor to 0 when it
    takes the count from non-zero to 0 and leaves the cursor as it is in
    every other case.  Of an allocation it states the bound only. *)
Theorem cursor_bounded_reset_on_empty (base sz : Z) (ops : list op)
    (ts : list (kdbus_buffer * op * kdbus_buffer)) :
  0 <= sz ->
  transitions (fresh base sz) ops = Some ts ->
  Forall (fun t : kdbus_buffer * op * kdbus_buffer =>
            let '(s, o, s') := t in
            pos s' <= size s' /\
            match o with
            | Alloc _ => True
            | Free _ =>
                (users s <> 0 /\ users s' = 0 -> pos s' = 0) /\
                (~ (users s <> 0 /\ users s' = 0) -> pos s' = pos s)
            end) ts.
Proof.
  intros Hsz.
  assert (Hinv : 0 <= size (fresh base sz) /\ pos (fresh base sz) <= size (fresh base sz))
    by (simpl; lia).
  revert Hinv. generalize (fresh base sz) as b. revert ts.
  induction ops as [| o ops IH]; intros ts b [Hs Hp]; simpl.
  - intros [= <-]. constructor.
  - destruct (step b o) as [b' |] eqn:Es; [| discriminate].
    destruct (transitions b' ops) as [ts' |] eqn:Et; [| discriminate].
    intros [= <-].
    assert (Hp' : pos b' <= size b') by (eapply step_cursor_le_size; eauto).
    assert (Hs' : 0 <= size b') by (rewrite (step_size _ _ _ Es); exact Hs).
    constructor; [| apply (IH ts' b'); auto].
    split; [exact Hp' |].
    destruct o as [len | msg]; [exact I |].
    simpl in Es. destruct (kdbus_buffer_free b msg) eqn:E; [| discriminate].
    injection Es as <-. apply (free_reset_iff _ _ _ E).
Qed.

Lemma cursor_bounded_reset_on_empty_witness :
  exists ts,
    transitions (fresh 65536 4096)
      [Alloc 100; Alloc 100; Free 65536; Alloc 5000; Free 65640] = Some ts /\
    Forall (fun t : kdbus_buffer * op * kdbus_buffer =>
              let '(s, o, s') := t in
              pos s' <= size s' /\
              match o with
              | Alloc _ => True
              | Free _ =>
                  (users s <> 0 /\ users s' = 0 -> pos s' = 0) /\
                  (~ (users s <> 0 /\ users s' = 0) -> pos s' = pos s)
              end) ts.
Proof.
  eexists. split.
  - vm_compute. reflexivity.
  - apply (cursor_bounded_reset_on_empty 65536 4096
             [Alloc 100; Alloc 100; Free 65536; Alloc 5000; Free 65640]).
    + lia.
    + vm_compute. reflexivity.
Defined.

(** C4, the code at the failing input: on a fresh buffer of 4096 bytes,
    allocate(100) and then allocate(2^64 - 104), with no release at all.
    The second allocation passes the bound check because
    [104 + (2^64 - 104)] is 0 in [size_t], and stores that 0 as the cursor:
    the cursor goes from 100 back to 0 at an allocation, with two slots
    outstanding. *)
Theorem cursor_zeroed_by_allocate :
  transitions (fresh 65536 4096) [Alloc 100; Alloc (2 ^ 64 - 104)] =
    Some [(fresh 65536 4096, Alloc 100, mk_buffer 65536 4096 100 1);
          (mk_buffer 65536 4096 100 1, Alloc (2 ^ 64 - 104),
           mk_buffer 65536 4096 0 2)] /\
  pos (mk_buffer 65536 4096 100 1) <> 0 /\
  pos (mk_buffer 65536 4096 0 2) = 0 /\
  users (mk_buffer 65536 4096 0 2) <> 0.
Proof.
  split; [vm_compute; reflexivity |].
  simpl. repeat split; lia.
Qed.

(** Between two resets the slots handed out are pairwise disjoint, as long
    as the lengths asked for are small enough for no sum to wrap around. *)
Lemma slots_disjoint_without_wraparound (ops : list op) :
  forall (b : kdbus_buffer) ts sl,
    0 <= pos b <= size b ->
    Forall (fun o => match o with
                     | Alloc len => 0 <= len /\ size b + 7 + len <= SIZE_MAX
                     | Free _ => True
                     end) ops ->
    transitions b ops = Some ts ->
    Forall (fun t : kdbus_buffer * op * kdbus_buffer =>
              let '(s, o, s') := t in users s = 0 \/ users s' <> 0) ts ->
    slots b ops = Some sl ->
    Forall (fun s => pos b <= fst s) sl /\ ForallOrdPairs disjoint sl.
Proof.
  induction ops as [| o ops IH]; intros b ts sl Hp Hops; simpl.
  - intros _ _ [= <-]. split; constructor.
  - destruct (step b o) as [b' |] eqn:Es; [| discriminate].
    destruct (transitions b' ops) as [ts' |] eqn:Et; [| discriminate].
    intros [= <-] Hnr.
    destruct (slots b' ops) as [sl' |] eqn:Esl; [| discriminate].
    inversion Hops as [| ? ? Ho Hops']; subst.
    inversion Hnr as [| ? ? Hnr1 Hnr']; subst.
    assert (Hsz : size b' = size b) by (eapply step_size; eauto).
    assert (Hmono : pos b <= pos b' <= size b').
    { split; [| rewrite Hsz].
      - destruct o as [len | msg]; simpl in Es.
        + injection Es as <-. apply alloc_monotone; lia.
        + destruct (kdbus_buffer_free b msg) eqn:E; [| discriminate].
          injection Es as <-.
          destruct (free_done _ _ _ E) as (_ & _ & [-> | (_ & Hn & _ & _ & H1)]); [lia |].
          destruct Hnr1 as [H | H]; [contradiction | rewrite (H1 H); lia].
      - rewrite <- Hsz. eapply step_cursor_le_size; eauto; lia. }
    assert (Hops'' : Forall (fun o => match o with
                     | Alloc len => 0 <= len /\ size b' + 7 + len <= SIZE_MAX
                     | Free _ => True
                     end) ops) by (rewrite Hsz; exact Hops').
    destruct (IH b' ts' sl' ltac:(lia) Hops'' Et Hnr' Esl) as [Hge Hdis].
    assert (Hge' : Forall (fun s => pos b <= fst s) sl').
    { eapply Forall_impl; [| exact Hge]. simpl. intros; lia. }
    destruct o as [len | msg].
    + destruct (Z.eqb_spec (snd (kdbus_buffer_alloc b len)) NULL) as [Hn | Hn];
        intros [= <-]; [split; assumption |].
      simpl in Es. injection Es as <-.
      destruct (alloc_monotone b len ltac:(lia) ltac:(lia) ltac:(lia)) as [_ Hacc].
      destruct (Hacc Hn) as [Hle Hend].
      split; constructor; auto.
      eapply Forall_impl; [| exact Hge]. intros s Hs x [Hx1 Hx2]. simpl in *. lia.
    + intros [= <-]. split; assumption.
Qed.

(** C5, the code at the failing input: on a fresh buffer of 4096 bytes the
    calls allocate(100), allocate(2^64 - 104), allocate(100) all succeed;
    the second passes the bound check because [104 + (2^64 - 104)] is 0 in
    [size_t], and leaves the cursor at 0 with two slots outstanding, so the
    third slot is the byte range of the first one again.  No reset lies
    between them: the count goes 1, 2, 3. *)
Theorem slots_overlap_after_wraparound :
  slots (fresh 65536 4096) [Alloc 100; Alloc (2 ^ 64 - 104); Alloc 100] =
    Some [(0, 100); (104, 2 ^ 64 - 104); (0, 100)] /\
  run (fresh 65536 4096) [Alloc 100; Alloc (2 ^ 64 - 104)] =
    Some (mk_buffer 65536 4096 0 2) /\
  run (fresh 65536 4096) [Alloc 100; Alloc (2 ^ 64 - 104); Alloc 100] =
    Some (mk_buffer 65536 4096 100 3) /\
  ~ disjoint (0, 100) (0, 100).
Proof.
  split; [vm_compute; reflexivity |].
  split; [vm_compute; reflexivity |].
  split; [vm_compute; reflexivity |].
  intros H. apply (H 0). simpl. lia.
Qed.

(** ** Pinning the receiver's pages *)

Lemma kernel_eta (k : kernel) :
  mk_kernel (pins k) (kmalloced k) (mm_users k) (copied k) = k.
Proof. destruct k; reflexivity. Qed.

Lemma drop_pin_head (pg : page) (l : list page) : drop_pin pg (pg :: l) = Some l.
Proof. simpl. rewrite Z.eqb_refl. reflexivity. Qed.

(** The loop of close drops the pins of the array entries, one after the
    other. *)
Lemma put_pages_prefix (m : kdbus_buffer_map) (suf : list page) :
  forall (pre rest : list page) (k : kernel),
    map_pages m = Some (pre ++ suf) ->
    Z.of_nat (length (pre ++ suf)) <= UINT_MAX ->
    pins k = suf ++ rest ->
    put_pages m (Z.of_nat (length pre)) (length suf) k =
      Some (tt, mk_kernel rest (kmalloced k) (mm_users k) (copied k)).
Proof.
  induction suf as [| pg suf IH]; intros pre rest k Hm Hlen Hp.
  - simpl. unfold ret. destruct k; simpl in *. subst. reflexivity.
  - cbn [put_pages length]. unfold bind, page_at. rewrite Hm.
    rewrite Nat2Z.id, nth_error_app2 by lia.
    rewrite Nat.sub_diag. cbn [nth_error]. unfold ret.
    unfold put_page. rewrite Hp. cbn [app].
    rewrite drop_pin_head.
    rewrite length_app in Hlen. cbn [length] in Hlen.
    rewrite uint_small by (unfold UINT_MAX in *; lia).
    replace (Z.of_nat (length pre) + 1) with (Z.of_nat (length (pre ++ [pg])))
      by (rewrite length_app; simpl; lia).
    rewrite (IH (pre ++ [pg]) rest); simpl; auto.
    + rewrite <- app_assoc. exact Hm.
    + rewrite !length_app. simpl. unfold UINT_MAX in *. lia.
Qed.

(** Close drops the pin of every page of the set and frees the array. *)
Lemma close_releases (m : kdbus_buffer_map) (arr rest : list page) (k : kernel) :
  map_pages m = Some arr ->
  map_n m = Z.of_nat (length arr) -> map_n m <= UINT_MAX ->
  pins k = arr ++ rest -> 0 < kmalloced k ->
  kdbus_buffer_map_close m k =
    Some (tt, mk_kernel rest (kmalloced k - 1) (mm_users k) (copied k)).
Proof.
  intros Hm Hn Hmax Hp Hk.
  unfold kdbus_buffer_map_close, bind.
  rewrite Hn, Nat2Z.id.
  assert (H := put_pages_prefix m arr [] rest k Hm ltac:(simpl; lia) Hp).
  simpl in H. rewrite H.
  unfold kfree. rewrite Hm. simpl.
  destruct (Z.ltb_spec 0 (kmalloced k)); [reflexivity | lia].
Qed.

Ltac kernel_restored k :=
  replace (kmalloced k + 1 - 1) with (kmalloced k) by lia;
  replace (mm_users k + 1 - 1) with (mm_users k) by lia;
  apply kernel_eta.

Section PinTheorems.

Variable PAGE_SIZE : Z.

Lemma page_count_range (addr len : Z) : 0 <= page_count PAGE_SIZE addr len <= UINT_MAX.
Proof. unfold page_count. apply uint_range. Qed.

(** X20: open always returns.  With the page array allocated and the task's
    memory present, an error of the pinning primitive is returned as it is,
    and fewer pages pinned than the page count open computed make the call
    fail with [-EFAULT]; whenever open fails, the kernel state is the one
    from before the call: every page pinned in between is unpinned again,
    the page array is freed and the reference on the memory space is
    dropped.  A failed allocation gives [-ENOMEM], a task without memory
    space [-ESHUTDOWN], and open returns 0 only with as many pages pinned
    as it counted. *)
Theorem open_error_paths (e : env) (to len : Z) (k : kernel) :
  0 <= kmalloced k -> 0 <= mm_users k ->
  (forall err, gup e = GupErr err -> err < 0) ->
  exists (r : Z) (m : kdbus_buffer_map) (k' : kernel),
    kdbus_buffer_map_open PAGE_SIZE e to len k = Some ((r, m), k') /\
    (kmalloc_ok e = true -> task_has_mm e = true ->
       forall err, gup e = GupErr err -> r = err) /\
    (kmalloc_ok e = true -> task_has_mm e = true ->
       forall pgs, gup e = GupPinned pgs ->
         Z.of_nat (length pgs) < page_count PAGE_SIZE (size_t to) len ->
         r = - EFAULT) /\
    (r <> 0 -> k' = k) /\
    (kmalloc_ok e = false -> r = - ENOMEM) /\
    (kmalloc_ok e = true -> task_has_mm e = false -> r = - ESHUTDOWN) /\
    (r = 0 ->
       exists pgs, gup e = GupPinned pgs /\
         map_pages m = Some (firstn (Z.to_nat (page_count PAGE_SIZE (size_t to) len)) pgs) /\
         map_n m = page_count PAGE_SIZE (size_t to) len /\
         map_n m <= Z.of_nat (length pgs) /\
         k' = mk_kernel
                (firstn (Z.to_nat (page_count PAGE_SIZE (size_t to) len)) pgs ++ pins k)
                (kmalloced k + 1) (mm_users k) (copied k)).
Proof.
  intros Hkm Hmm Herr.
  destruct (page_count_range (size_t to) len) as [Hn0 Hn1].
  unfold UINT_MAX in Hn1.
  unfold kdbus_buffer_map_open.
  set (n := page_count PAGE_SIZE (size_t to) len) in *.
  unfold bind at 1. unfold kmalloc.
  destruct (kmalloc_ok e).
  2:{ do 3 eexists. split; [reflexivity |]. repeat split; intros; discriminate. }
  unfold bind at 1. unfold get_task_mm.
  destruct (task_has_mm e); cbn [negb].
  2:{ unfold bind at 1.
      erewrite (close_releases _ [] (pins k)); cbn; try reflexivity; try lia.
      do 3 eexists. split; [reflexivity |].
      repeat split; intros; try discriminate.
      replace (kmalloced k + 1 - 1) with (kmalloced k) by lia. apply kernel_eta. }
  unfold bind at 1. unfold get_user_pages.
  destruct (gup e) as [err | pgs] eqn:Eg.
  - specialize (Herr err eq_refl).
    unfold bind at 1. unfold mmput. cbn.
    destruct (Z.ltb_spec 0 (mm_users k + 1)); [| lia].
    destruct (Z.ltb_spec err 0); [| lia].
    unfold bind at 1.
    erewrite (close_releases _ [] (pins k)); cbn; try reflexivity; try lia.
    do 3 eexists. split; [reflexivity |].
    repeat split; intros; try congruence; try lia.
    kernel_restored k.
  - set (got := firstn (Z.to_nat (int_of_uint n)) pgs).
    assert (Hint : int_of_uint n = n \/ int_of_uint n < 0 /\ 2 ^ 31 <= n).
    { unfold int_of_uint. destruct (Z.ltb_spec n (2 ^ 31)); lia. }
    assert (Hgot : Z.of_nat (length got) <= n).
    { unfold got. rewrite length_firstn. lia. }
    unfold bind at 1. unfold mmput. cbn.
    destruct (Z.ltb_spec 0 (mm_users k + 1)); [| lia].
    destruct (Z.ltb_spec (Z.of_nat (length got)) 0); [lia |].
    rewrite (uint_small (Z.of_nat (length got))) by (unfold UINT_MAX; lia).
    destruct (Z.ltb_spec (Z.of_nat (length got)) n) as [Hshort | Hfull].
    + unfold bind at 1.
      erewrite (close_releases _ got (pins k)); cbn; try reflexivity; try lia.
      do 3 eexists. split; [reflexivity |].
      repeat split; intros; try congruence; try discriminate.
      kernel_restored k.
    + do 3 eexists. split; [reflexivity |].
      assert (Hlen : n <= Z.of_nat (length pgs) /\ got = firstn (Z.to_nat n) pgs).
      { unfold got in *. rewrite length_firstn in Hfull.
        destruct Hint as [-> | [Hneg Hbig]]; [split; [lia | reflexivity] |].
        replace (Z.to_nat (int_of_uint n)) with 0%nat in Hfull by lia.
        simpl in Hfull. lia. }
      destruct Hlen as [Hlen Hgot'].
      repeat split; intros; try congruence.
      * exfalso. assert (pgs0 = pgs) by congruence. subst pgs0. lia.
      * exists pgs. cbn [map_pages map_n]. rewrite <- Hgot'.
        repeat split; try lia.
        replace (mm_users k + 1 - 1) with (mm_users k) by lia. reflexivity.
Qed.

End PinTheorems.

Lemma open_error_paths_witness :
  exists (r : Z) (m : kdbus_buffer_map) (k' : kernel),
    kdbus_buffer_map_open 4096 env_short 2097152 5000 idle_kernel = Some ((r, m), k') /\
    (kmalloc_ok env_short = true -> task_has_mm env_short = true ->
       forall err, gup env_short = GupErr err -> r = err) /\
    (kmalloc_ok env_short = true -> task_has_mm env_short = true ->
       forall pgs, gup env_short = GupPinned pgs ->
         Z.of_nat (length pgs) < page_count 4096 (size_t 2097152) 5000 ->
         r = - EFAULT) /\
    (r <> 0 -> k' = idle_kernel) /\
    (kmalloc_ok env_short = false -> r = - ENOMEM) /\
    (kmalloc_ok env_short = true -> task_has_mm env_short = false -> r = - ESHUTDOWN) /\
    (r = 0 ->
       exists pgs, gup env_short = GupPinned pgs /\
         map_pages m = Some (firstn (Z.to_nat (page_count 4096 (size_t 2097152) 5000)) pgs) /\
         map_n m = page_count 4096 (size_t 2097152) 5000 /\
         map_n m <= Z.of_nat (length pgs) /\
         k' = mk_kernel
                (firstn (Z.to_nat (page_count 4096 (size_t 2097152) 5000)) pgs
                   ++ pins idle_kernel)
                (kmalloced idle_kernel + 1) (mm_users idle_kernel) (copied idle_kernel)).
Proof.
  apply (open_error_paths 4096 env_short 2097152 5000 idle_kernel).
  - simpl. lia.
  - simpl. lia.
  - intros err H. simpl in H. discriminate H.
Defined.

(** A pin of one page where the range has two: [-EFAULT], and the kernel
    is idle again. *)
Example open_short_pin :
  kdbus_buffer_map_open 4096 env_short 2097152 5000 idle_kernel =
    Some ((- EFAULT, mk_map (Some [11]) 1 0 0), idle_kernel).
Proof. vm_compute. reflexivity. Qed.

(** C7, the code at the failing input: pages of 4096 bytes, a range of
    [2^44 + 1] bytes from address 4096 on, which spans [2^32 + 1] pages,
    and a pinning primitive that pins one page.  The page count is kept in
    an [unsigned int], so open computes [n = 1], asks for one page, finds
    nothing missing and returns 0: a pin of one page out of [2^32 + 1] is
    accepted.  A write of the range then leaves the page array behind its
    first window. *)
Theorem open_accepts_truncated_page_count :
  4096 + (2 ^ 44 + 1) <= 2 ^ 64 /\
  boundaries_spanned 4096 (4096 mod 4096) (2 ^ 44 + 1) + 1 = 2 ^ 32 + 1 /\
  page_count 4096 (size_t 4096) (2 ^ 44 + 1) = 1 /\
  kdbus_buffer_map_open 4096 env_short 4096 (2 ^ 44 + 1) idle_kernel =
    Some ((0, mk_map (Some [11]) 1 0 0), mk_kernel [11] 1 0 []) /\
  forall fuel,
    write_loop 4096 (S (S fuel)) (sender_mem 65536 4096) (mk_map (Some [11]) 1 0 0)
      65536 (2 ^ 44 + 1) (mk_kernel [11] 1 0 []) = None.
Proof.
  split; [lia |].
  split; [vm_compute; reflexivity |].
  split; [vm_compute; reflexivity |].
  split; [vm_compute; reflexivity |].
  intros fuel. vm_compute. reflexivity.
Qed.

(** ** The windowed copy *)

(** *** Reading the sender's memory *)

Lemma read_user_prefix (umem : Z -> option byte) (c1 : nat) :
  forall a c2, (c1 <= c2)%nat ->
    length (read_user umem a c2) = c2 ->
    read_user umem a c1 = firstn c1 (read_user umem a c2).
Proof.
  induction c1 as [| c1 IH]; intros a c2 Hle Hfull; [reflexivity |].
  destruct c2 as [| c2]; [lia |]. simpl in *.
  destruct (umem a); simpl in *; [| discriminate].
  f_equal. apply IH; lia.
Qed.

Lemma read_user_full_le (umem : Z -> option byte) (a : Z) (c1 c2 : nat) :
  (c1 <= c2)%nat ->
  length (read_user umem a c2) = c2 -> length (read_user umem a c1) = c1.
Proof.
  intros Hle Hfull. rewrite (read_user_prefix umem c1 a c2 Hle Hfull).
  rewrite length_firstn. lia.
Qed.

Section WriteTheorems.

Variable PAGE_SIZE : Z.
Variable umem : Z -> option byte.
Variable from : Z.
Hypothesis page_size_pos : 0 < PAGE_SIZE <= SIZE_MAX.

Lemma write_loop_S (fuel : nat) (m : kdbus_buffer_map) (len : Z) :
  write_loop PAGE_SIZE (S fuel) umem m from len =
    if len >? 0 then
      let bytes := Z.min (size_t (PAGE_SIZE - map_pos m)) len in
      pg <- page_at m (map_cur m) ;;
      left <- copy_from_user umem pg (map_pos m) from bytes ;;
      if negb (left =? 0) then ret (- EFAULT, m)
      else
        let m1 := mk_map (map_pages m) (map_n m) (map_cur m)
                         (size_t (map_pos m + bytes)) in
        let m2 := if map_pos m1 =? PAGE_SIZE
                  then mk_map (map_pages m1) (map_n m1) (size_t (map_cur m1 + 1)) 0
                  else m1 in
        write_loop PAGE_SIZE fuel umem m2 from (size_t (len - bytes))
    else ret (0, m).
Proof. reflexivity. Qed.

Lemma chunk_sizes_S (fuel : nat) (p len : Z) :
  chunk_sizes PAGE_SIZE (S fuel) p len =
    if len >? 0 then
      Z.min (PAGE_SIZE - p) len ::
        chunk_sizes PAGE_SIZE fuel
          (if p + Z.min (PAGE_SIZE - p) len =? PAGE_SIZE then 0
           else p + Z.min (PAGE_SIZE - p) len)
          (len - Z.min (PAGE_SIZE - p) len)
    else [].
Proof. reflexivity. Qed.

(** Whatever its result, a write keeps every pin and the page array, and
    it returns 0 or [-EFAULT]. *)
Lemma write_loop_keeps_pins (fuel : nat) :
  forall m len k r m' k',
    write_loop PAGE_SIZE fuel umem m from len k = Some ((r, m'), k') ->
    pins k' = pins k /\ kmalloced k' = kmalloced k /\ mm_users k' = mm_users k /\
    map_pages m' = map_pages m /\ map_n m' = map_n m /\
    (r = 0 \/ r = - EFAULT).
Proof.
  induction fuel as [| fuel IH]; intros m len k r m' k'.
  - simpl. destruct (len >? 0); [discriminate |].
    intros [= <- <- <-]. repeat split; auto.
  - rewrite write_loop_S. destruct (len >? 0).
    2:{ intros [= <- <- <-]. repeat split; auto. }
    cbv zeta. unfold bind at 1. unfold page_at.
    destruct (map_pages m) as [arr |] eqn:Ea; [| discriminate].
    destruct (nth_error arr (Z.to_nat (map_cur m))) as [pg |]; [| discriminate].
    unfold ret at 1. unfold bind at 1. unfold copy_from_user.
    destruct (negb _).
    + intros [= <- <- <-]. simpl. repeat split; auto.
    + intros H. apply IH in H. cbn [map_pos map_pages map_n pins kmalloced mm_users] in H.
      destruct (_ =? PAGE_SIZE); cbn [map_pages map_n] in H; intuition congruence.
Qed.

(** The write cursor after a window of [Z.min (PAGE_SIZE - pos) len]
    bytes: it has moved on by that many bytes, and what is left of the
    range still lies within the page array. *)
Lemma cursor_advance (m : kdbus_buffer_map) (arr : list page) (len : Z) :
  map_pages m = Some arr -> Z.of_nat (length arr) <= SIZE_MAX ->
  0 <= map_pos m < PAGE_SIZE -> 0 <= map_cur m -> 0 < len ->
  map_cur m + (map_pos m + len - 1) / PAGE_SIZE < Z.of_nat (length arr) ->
  forall bytes m2,
    bytes = Z.min (PAGE_SIZE - map_pos m) len ->
    m2 = (if map_pos m + bytes =? PAGE_SIZE
          then mk_map (Some arr) (map_n m) (size_t (map_cur m + 1)) 0
          else mk_map (Some arr) (map_n m) (map_cur m) (map_pos m + bytes)) ->
    map_pages m2 = Some arr /\
    map_pos m2 = (if map_pos m + bytes =? PAGE_SIZE then 0 else map_pos m + bytes) /\
    map_cur m2 * PAGE_SIZE + map_pos m2 = map_cur m * PAGE_SIZE + map_pos m + bytes /\
    0 <= map_pos m2 < PAGE_SIZE /\ 0 <= map_cur m2 /\
    (0 < len - bytes ->
     map_cur m2 + (map_pos m2 + (len - bytes) - 1) / PAGE_SIZE < Z.of_nat (length arr)).
Proof.
  intros Ha Harr Hpos Hcur Hlen Hpages bytes m2 Hb ->.
  assert (Hdiv : 0 <= (map_pos m + len - 1) / PAGE_SIZE) by (apply Z.div_pos; lia).
  destruct (Z.eqb_spec (map_pos m + bytes) PAGE_SIZE) as [He | Hne];
    cbn [map_pos map_cur map_pages map_n].
  - rewrite (size_t_small (map_cur m + 1)) by lia.
    repeat split; try lia; auto.
    intros Hrest.
    replace (map_pos m + len - 1) with (len - bytes - 1 + 1 * PAGE_SIZE) in Hpages by lia.
    rewrite Z.div_add in Hpages by lia.
    simpl. lia.
  - repeat split; try lia; auto.
Qed.

(** With a page array long enough for the range, a write returns, whatever
    the sender's memory looks like. *)
Lemma write_loop_returns (fuel : nat) :
  forall m arr len k,
    (Z.to_nat len < fuel)%nat ->
    map_pages m = Some arr -> Z.of_nat (length arr) <= SIZE_MAX ->
    0 <= map_pos m < PAGE_SIZE -> 0 <= map_cur m ->
    0 <= len <= SIZE_MAX ->
    (0 < len -> map_cur m + (map_pos m + len - 1) / PAGE_SIZE < Z.of_nat (length arr)) ->
    exists r m' k', write_loop PAGE_SIZE fuel umem m from len k = Some ((r, m'), k').
Proof.
  induction fuel as [| fuel IH]; intros m arr len k Hfuel Ha Harr Hpos Hcur Hlen Hpages;
    [lia |].
  rewrite write_loop_S.
  destruct (Z.gtb_spec len 0) as [Hgt | Hle]; [| do 3 eexists; reflexivity].
  specialize (Hpages ltac:(lia)).
  cbv zeta.
  rewrite (size_t_small (PAGE_SIZE - map_pos m)) by lia.
  set (bytes := Z.min (PAGE_SIZE - map_pos m) len).
  assert (Hb : 0 < bytes <= len /\ bytes <= PAGE_SIZE - map_pos m) by (unfold bytes; lia).
  assert (Hdiv : 0 <= (map_pos m + len - 1) / PAGE_SIZE) by (apply Z.div_pos; lia).
  unfold bind at 1. unfold page_at. rewrite Ha.
  destruct (nth_error arr (Z.to_nat (map_cur m))) as [pg |] eqn:Epg.
  2:{ apply nth_error_None in Epg. lia. }
  unfold ret at 1. unfold bind at 1. unfold copy_from_user.
  destruct (negb _); [do 3 eexists; reflexivity |].
  cbn [map_pos map_cur map_pages map_n].
  rewrite (size_t_small (map_pos m + bytes)) by lia.
  rewrite (size_t_small (len - bytes)) by lia.
  set (m2 := if map_pos m + bytes =? PAGE_SIZE then _ else _).
  destruct (cursor_advance m arr len Ha Harr Hpos Hcur Hgt Hpages bytes m2 eq_refl eq_refl)
    as (Ha2 & Hp2 & Hlin & Hpos2 & Hcur2 & Hpages2).
  apply (IH m2 arr (len - bytes)); auto; lia.
Qed.

(** The windows of a write whose source is readable and whose page set is
    long enough. *)
Lemma write_loop_windows (fuel : nat) :
  forall m arr len k,
    (Z.to_nat len < fuel)%nat ->
    map_pages m = Some arr -> Z.of_nat (length arr) <= SIZE_MAX ->
    0 <= map_pos m < PAGE_SIZE -> 0 <= map_cur m ->
    0 <= len <= SIZE_MAX ->
    (0 < len -> map_cur m + (map_pos m + len - 1) / PAGE_SIZE < Z.of_nat (length arr)) ->
    length (read_user umem from (Z.to_nat (Z.min len PAGE_SIZE))) =
      Z.to_nat (Z.min len PAGE_SIZE) ->
    exists m' new,
      write_loop PAGE_SIZE fuel umem m from len k =
        Some ((0, m'),
              mk_kernel (pins k) (kmalloced k) (mm_users k) (copied k ++ new)) /\
      map (fun c => Z.of_nat (length (cp_data c))) new =
        chunk_sizes PAGE_SIZE fuel (map_pos m) len /\
      Forall (fun c => cp_data c = read_user umem from (length (cp_data c))) new /\
      map_cur m' * PAGE_SIZE + map_pos m' =
        map_cur m * PAGE_SIZE + map_pos m + len /\
      0 <= map_pos m' < PAGE_SIZE.
Proof.
  induction fuel as [| fuel IH]; intros m arr len k Hfuel Ha Harr Hpos Hcur Hlen Hpages Hread;
    [lia |].
  rewrite write_loop_S, chunk_sizes_S.
  destruct (Z.gtb_spec len 0) as [Hgt | Hle].
  2:{ assert (len = 0) by lia. subst len.
      exists m, []. rewrite app_nil_r.
      unfold ret. rewrite kernel_eta.
      repeat split; try constructor; try lia. }
  specialize (Hpages ltac:(lia)).
  cbv zeta.
  rewrite (size_t_small (PAGE_SIZE - map_pos m)) by lia.
  set (bytes := Z.min (PAGE_SIZE - map_pos m) len).
  assert (Hb : 0 < bytes <= len /\ bytes <= PAGE_SIZE - map_pos m) by (unfold bytes; lia).
  assert (Hdiv : 0 <= (map_pos m + len - 1) / PAGE_SIZE) by (apply Z.div_pos; lia).
  unfold bind at 1. unfold page_at. rewrite Ha.
  destruct (nth_error arr (Z.to_nat (map_cur m))) as [pg |] eqn:Epg.
  2:{ apply nth_error_None in Epg. lia. }
  unfold ret at 1. unfold bind at 1. unfold copy_from_user.
  assert (Hfull : length (read_user umem from (Z.to_nat bytes)) = Z.to_nat bytes).
  { eapply read_user_full_le; [| exact Hread]. lia. }
  rewrite Hfull, Z2Nat.id, Z.sub_diag by lia. cbn [Z.eqb negb].
  cbn [map_pos map_cur map_pages map_n].
  rewrite (size_t_small (map_pos m + bytes)) by lia.
  rewrite (size_t_small (len - bytes)) by lia.
  set (m2 := if map_pos m + bytes =? PAGE_SIZE then _ else _).
  destruct (cursor_advance m arr len Ha Harr Hpos Hcur Hgt Hpages bytes m2 eq_refl eq_refl)
    as (Ha2 & Hp2 & Hlin & Hpos2 & Hcur2 & Hpages2).
  destruct (IH m2 arr (len - bytes)
               (mk_kernel (pins k) (kmalloced k) (mm_users k)
                  (copied k ++ [mk_copy pg (map_pos m) (read_user umem from (Z.to_nat bytes))]))
               ltac:(lia) Ha2 Harr Hpos2 Hcur2 ltac:(lia) Hpages2)
    as (m' & new & Hrun & Hsizes & Hpre & Hlin' & Hpos').
  { eapply read_user_full_le; [| exact Hread]. lia. }
  exists m', (mk_copy pg (map_pos m) (read_user umem from (Z.to_nat bytes)) :: new).
  split; [| split; [| split; [| split]]].
  - rewrite Hrun. cbn [pins kmalloced mm_users copied].
    rewrite <- app_assoc. reflexivity.
  - cbn [map cp_data]. rewrite Hfull, Z2Nat.id by lia.
    rewrite Hsizes, Hp2. reflexivity.
  - constructor; [| exact Hpre].
    cbn [cp_data]. rewrite Hfull. reflexivity.
  - lia.
  - exact Hpos'.
Qed.

(** The window sizes: one window more than page boundaries inside the
    range, none larger than a page, [len] bytes in all. *)
Lemma chunk_sizes_shape (fuel : nat) :
  forall p len,
    (Z.to_nat len < fuel)%nat -> 0 <= p < PAGE_SIZE -> 0 < len ->
    Z.of_nat (length (chunk_sizes PAGE_SIZE fuel p len)) =
      boundaries_spanned PAGE_SIZE p len + 1 /\
    Forall (fun s => 0 < s <= PAGE_SIZE) (chunk_sizes PAGE_SIZE fuel p len) /\
    fold_right Z.add 0 (chunk_sizes PAGE_SIZE fuel p len) = len.
Proof.
  unfold boundaries_spanned.
  induction fuel as [| fuel IH]; intros p len Hfuel Hp Hlen; [lia |].
  rewrite chunk_sizes_S.
  destruct (Z.gtb_spec len 0) as [_ | Hle]; [| lia].
  set (bytes := Z.min (PAGE_SIZE - p) len).
  assert (Hb : 0 < bytes <= len /\ bytes <= PAGE_SIZE - p) by (unfold bytes; lia).
  destruct (Z.eq_dec (len - bytes) 0) as [Hz | Hnz].
  - rewrite Hz.
    assert (Hnil : forall q, chunk_sizes PAGE_SIZE fuel q 0 = [])
      by (intros q; destruct fuel; reflexivity).
    rewrite Hnil. cbn [length fold_right].
    rewrite Z.div_small by lia.
    repeat split; try lia. constructor; [lia | constructor].
  - assert (He : p + bytes = PAGE_SIZE) by (unfold bytes in *; lia).
    rewrite He, Z.eqb_refl.
    destruct (IH 0 (len - bytes) ltac:(lia) ltac:(lia) ltac:(lia)) as (Hl & Hall & Hsum).
    cbn [length fold_right]. rewrite Hsum.
    replace (p + len - 1) with (0 + (len - bytes) - 1 + 1 * PAGE_SIZE) by lia.
    rewrite Z.div_add by lia.
    repeat split; try lia. constructor; [lia | exact Hall].
Qed.

(** A write of [len > 0] bytes from a readable source through a page set
    that is long enough succeeds.  It makes one windowed copy more than
    page boundaries lie inside the destination range, none larger than a
    page, [len] bytes in all, and moves the write cursor on by [len]; and
    every window is filled from the address [from], the start of the
    source. *)
Lemma write_windows (m : kdbus_buffer_map) (arr : list page) (len : Z) (k : kernel) :
  map_pages m = Some arr -> Z.of_nat (length arr) <= SIZE_MAX ->
  0 <= map_pos m < PAGE_SIZE -> 0 <= map_cur m ->
  0 < len <= SIZE_MAX ->
  map_cur m + boundaries_spanned PAGE_SIZE (map_pos m) len < Z.of_nat (length arr) ->
  length (read_user umem from (Z.to_nat (Z.min len PAGE_SIZE))) =
    Z.to_nat (Z.min len PAGE_SIZE) ->
  exists m' new,
    kdbus_buffer_map_write PAGE_SIZE umem m from len k =
      Some ((0, m'),
            mk_kernel (pins k) (kmalloced k) (mm_users k) (copied k ++ new)) /\
    map (fun c => Z.of_nat (length (cp_data c))) new =
      chunk_sizes PAGE_SIZE (S (Z.to_nat len)) (map_pos m) len /\
    Z.of_nat (length new) = boundaries_spanned PAGE_SIZE (map_pos m) len + 1 /\
    Forall (fun c => 0 < Z.of_nat (length (cp_data c)) <= PAGE_SIZE) new /\
    fold_right Z.add 0 (map (fun c => Z.of_nat (length (cp_data c))) new) = len /\
    Forall (fun c => cp_data c = read_user umem from (length (cp_data c))) new /\
    map_cur m' * PAGE_SIZE + map_pos m' = map_cur m * PAGE_SIZE + map_pos m + len.
Proof.
  intros Ha Harr Hpos Hcur Hlen Hpages Hread.
  unfold kdbus_buffer_map_write.
  destruct (write_loop_windows (S (Z.to_nat len)) m arr len k
              ltac:(lia) Ha Harr Hpos Hcur ltac:(lia) ltac:(intros _; exact Hpages) Hread)
    as (m' & new & Hrun & Hsizes & Hsrc & Hlin & _).
  destruct (chunk_sizes_shape (S (Z.to_nat len)) (map_pos m) len
              ltac:(lia) Hpos ltac:(lia)) as (Hcount & Hall & Hsum).
  rewrite <- Hsizes in Hcount, Hall, Hsum.
  exists m', new. split; [exact Hrun |]. split; [exact Hsizes |].
  rewrite length_map in Hcount. split; [exact Hcount |].
  split; [| split; [exact Hsum | split; [exact Hsrc | exact Hlin]]].
  rewrite Forall_map in Hall. exact Hall.
Qed.

End WriteTheorems.

(** *** The two scenarios *)

(** C8, the code at the failing input: 5000 bytes, all readable, go to a
    page-aligned range of two pinned pages of 4096 bytes.  The write
    succeeds with two windowed copies, 4096 bytes into the first page and
    904 bytes into the second; but [from] is not advanced between the
    copies, so the second window holds the first 904 bytes of the source
    again, and the chunks written, put together, are not the source. *)
Theorem write_5000_repeats_source_start :
  exists m k1 m' k2,
    kdbus_buffer_map_open 4096 env_two_pages 2097152 5000 idle_kernel =
      Some ((0, m), k1) /\
    kdbus_buffer_map_write 4096 (sender_mem 65536 5000) m 65536 5000 k1 =
      Some ((0, m'), k2) /\
    length (read_user (sender_mem 65536 5000) 65536 5000) = 5000%nat /\
    map (fun c => (cp_page c, cp_pos c, length (cp_data c))) (copied k2) =
      [(11, 0, 4096%nat); (12, 0, 904%nat)] /\
    concat (map cp_data (copied k2)) =
      firstn 4096 (read_user (sender_mem 65536 5000) 65536 5000) ++
      firstn 904 (read_user (sender_mem 65536 5000) 65536 5000) /\
    concat (map cp_data (copied k2)) <> read_user (sender_mem 65536 5000) 65536 5000.
Proof.
  do 4 eexists.
  split; [vm_compute; reflexivity |].
  split; [vm_compute; reflexivity |].
  split; [vm_compute; reflexivity |].
  split; [vm_compute; reflexivity |].
  split; [vm_compute; reflexivity |].
  intros H. apply (f_equal (fun l => nth 4096 l x00)) in H.
  vm_compute in H. discriminate H.
Qed.

(** C9, the code at the failing input: 5000 bytes are to go to a range that
    starts at position 4000 of the first of three pinned pages, and the
    source faults at offset 200.  The first window takes 96 bytes; the
    second asks for 4096 bytes from the start of the source again, gets 200
    and faults.  The write returns [-EFAULT] with the pins in place and the
    cursor at the start of the faulting window, but 296 bytes have been
    written, more than the 200 the source has in front of the fault, and
    the first 200 bytes of the destination are not those of the source. *)
Theorem write_fault_leaves_wrong_bytes :
  exists m k1 m' k2,
    kdbus_buffer_map_open 4096 env_three_pages (2097152 + 4000) 5000 idle_kernel =
      Some ((0, m), k1) /\
    kdbus_buffer_map_write 4096 (sender_mem 65536 200) m 65536 5000 k1 =
      Some ((- EFAULT, m'), k2) /\
    length (read_user (sender_mem 65536 200) 65536 5000) = 200%nat /\
    map_cur m' = 1 /\ map_pos m' = 0 /\
    map_pages m' = map_pages m /\ map_n m' = map_n m /\ pins k2 = pins k1 /\
    map (fun c => (cp_page c, cp_pos c, length (cp_data c))) (copied k2) =
      [(11, 4000, 96%nat); (12, 0, 200%nat)] /\
    length (concat (map cp_data (copied k2))) = 296%nat /\
    firstn 200 (concat (map cp_data (copied k2))) <>
      read_user (sender_mem 65536 200) 65536 5000.
Proof.
  do 4 eexists.
  split; [vm_compute; reflexivity |].
  split; [vm_compute; reflexivity |].
  repeat (split; [vm_compute; reflexivity |]).
  intros H. apply (f_equal (fun l => nth 96 l x00)) in H.
  vm_compute in H. discriminate H.
Qed.

(** * Further properties of the code *)

(** ** The allocator *)

(** X1: a non-[NULL] result of allocate points to [len] bytes inside the buffer
    the receiver registered: it is the buffer address plus a multiple of 8
    that is not below the old cursor, and the slot ends at the new cursor,
    which is within the size. *)
Theorem alloc_slot_inside_buffer (b b' : kdbus_buffer) (len p : Z) :
  valid_user_range (buf b) (size b) -> 0 <= pos b -> 0 <= len ->
  round_up8 (pos b) + len <= SIZE_MAX ->
  kdbus_buffer_alloc b len = (b', p) -> p <> NULL ->
  exists off,
    p = buf b + off /\ off mod 8 = 0 /\ pos b <= off /\
    pos b' = off + len /\ pos b' <= size b /\
    buf b <= p /\ p + len <= buf b + size b.
Proof.
  intros (Hb & Hs & Hend) Hp Hl Hfit Ha Hnn.
  destruct (round_up8_bounds (pos b)) as [Hr Hm].
  unfold kdbus_buffer_alloc in Ha.
  rewrite align8_round_up in Ha by (try lia; eapply round_up8_fits; eassumption).
  rewrite size_t_small in Ha by lia.
  destruct (Z.gtb_spec (round_up8 (pos b) + len) (size b)) as [Hbig | Hok];
    inversion Ha; subst; [contradiction |].
  exists (round_up8 (pos b)). cbn [pos].
  assert (Hp' : size_t (buf b + round_up8 (pos b)) = buf b + round_up8 (pos b)).
  { destruct (Z.eq_dec (buf b + round_up8 (pos b)) (2 ^ 64)) as [He | Hne].
    - exfalso. apply Hnn. unfold size_t, NULL. rewrite He. apply Z.mod_same. lia.
    - apply size_t_small. unfold SIZE_MAX. lia. }
  rewrite Hp'. repeat split; try lia.
Qed.

Lemma alloc_slot_inside_buffer_witness :
  exists off,
    65536 + 104 = buf (mk_buffer 65536 4096 100 1) + off /\ off mod 8 = 0 /\
    pos (mk_buffer 65536 4096 100 1) <= off /\
    pos (mk_buffer 65536 4096 204 2) = off + 100 /\
    pos (mk_buffer 65536 4096 204 2) <= size (mk_buffer 65536 4096 100 1) /\
    buf (mk_buffer 65536 4096 100 1) <= 65536 + 104 /\
    65536 + 104 + 100 <=
      buf (mk_buffer 65536 4096 100 1) + size (mk_buffer 65536 4096 100 1).
Proof.
  apply (alloc_slot_inside_buffer (mk_buffer 65536 4096 100 1)
           (mk_buffer 65536 4096 204 2) 100 (65536 + 104)).
  - unfold valid_user_range. simpl. lia.
  - simpl. lia.
  - lia.
  - vm_compute. discriminate.
  - vm_compute. reflexivity.
  - vm_compute. discriminate.
Defined.

(** X3: on a buffer with no slot outstanding, allocating a slot and releasing
    the pointer that came back leaves the buffer empty again, cursor 0 and
    count 0, whatever the cursor was and whatever length was asked for. *)
Theorem alloc_free_round_trip (b b' : kdbus_buffer) (len p : Z) :
  users b = 0 ->
  kdbus_buffer_alloc b len = (b', p) -> p <> NULL ->
  kdbus_buffer_free b' p = Done (mk_buffer (buf b) (size b) 0 0).
Proof.
  intros Hu Ha Hp. unfold kdbus_buffer_alloc in Ha.
  destruct (_ >? _); inversion Ha; subst; [contradiction |].
  rewrite Hu. rewrite free_nonnull.
  - reflexivity.
  - exact Hp.
  - cbn [users]. vm_compute. split; [reflexivity | discriminate].
Qed.

Lemma alloc_free_round_trip_witness :
  kdbus_buffer_free (mk_buffer 65536 4096 100 1) 65536 = Done (mk_buffer 65536 4096 0 0).
Proof.
  apply (alloc_free_round_trip (fresh 65536 4096) (mk_buffer 65536 4096 100 1) 100 65536).
  - reflexivity.
  - vm_compute. reflexivity.
  - vm_compute. discriminate.
Defined.

Lemma run_empty_invariant (ops : list op) :
  forall (b b' : kdbus_buffer) (n : Z),
    0 <= users b <= n -> (users b = 0 -> pos b = 0) ->
    n + Z.of_nat (length ops) <= UINT_MAX ->
    run b ops = Some b' ->
    0 <= users b' <= n + Z.of_nat (length ops) /\ (users b' = 0 -> pos b' = 0).
Proof.
  induction ops as [| o ops IH]; intros b b' n Hu Hz Hn; simpl.
  - intros [= <-]. split; [lia | exact Hz].
  - destruct (step b o) as [b1 |] eqn:Es; [| discriminate].
    intros Hrun.
    assert (H1 : 0 <= users b1 <= n + 1 /\ (users b1 = 0 -> pos b1 = 0)).
    { destruct o as [len | msg]; simpl in Es.
      - injection Es as <-. unfold kdbus_buffer_alloc.
        destruct (_ >? _); cbn [fst users pos]; [split; [lia | exact Hz] |].
        rewrite uint_small by (simpl length in Hn; lia).
        split; intros; lia.
      - destruct (kdbus_buffer_free b msg) eqn:E; [| discriminate].
        injection Es as <-.
        destruct (free_done _ _ _ E) as (_ & _ & [-> | (_ & Hn0 & Hu' & H0 & _)]).
        + split; [lia | exact Hz].
        + rewrite uint_small in Hu' by (simpl length in Hn; lia).
          split; [lia | exact H0]. }
    destruct H1 as [Hu1 Hz1].
    destruct (IH b1 b' (n + 1) Hu1 Hz1 ltac:(simpl length in Hn; lia) Hrun) as [Ha Hb].
    split; [simpl length; lia | exact Hb].
Qed.

(** X4: after any sequence of at most [UINT_MAX] calls on a fresh buffer, the
    count of outstanding slots is not negative and not above the number of
    calls, and whenever it is 0 the cursor is 0: an empty buffer has all of
    its space to give. *)
Theorem empty_buffer_has_cursor_zero (base sz : Z) (ops : list op) (b : kdbus_buffer) :
  Z.of_nat (length ops) <= UINT_MAX ->
  run (fresh base sz) ops = Some b ->
  0 <= users b <= Z.of_nat (length ops) /\ (users b = 0 -> pos b = 0).
Proof.
  intros Hn Hrun.
  apply (run_empty_invariant ops (fresh base sz) b 0); simpl; auto; lia.
Qed.

Lemma empty_buffer_has_cursor_zero_witness :
  0 <= users (mk_buffer 65536 4096 0 0) <= Z.of_nat (length [Alloc 100; Alloc 100; Free 65536; Free 65640]) /\
  (users (mk_buffer 65536 4096 0 0) = 0 -> pos (mk_buffer 65536 4096 0 0) = 0).
Proof.
  apply (empty_buffer_has_cursor_zero 65536 4096
           [Alloc 100; Alloc 100; Free 65536; Free 65640]).
  - vm_compute. discriminate.
  - vm_compute. reflexivity.
Defined.

(** X5: releasing a slot while another one stays outstanding gives no space
    back: the cursor stays, and any allocation afterwards gets the answer
    (pointer and new cursor) it would have got before the release. *)
Theorem partial_release_frees_no_space (b : kdbus_buffer) (msg len : Z) :
  2 <= users b <= UINT_MAX -> msg <> NULL ->
  exists b1,
    kdbus_buffer_free b msg = Done b1 /\
    pos b1 = pos b /\ users b1 = users b - 1 /\
    snd (kdbus_buffer_alloc b1 len) = snd (kdbus_buffer_alloc b len) /\
    pos (fst (kdbus_buffer_alloc b1 len)) = pos (fst (kdbus_buffer_alloc b len)).
Proof.
  intros Hu Hm. rewrite free_nonnull by (try assumption; lia).
  destruct (Z.eqb_spec (users b) 1); [lia |].
  eexists. split; [reflexivity |]. cbn [pos users].
  repeat split.
  - unfold kdbus_buffer_alloc. cbn [pos size buf]. destruct (_ >? _); reflexivity.
  - unfold kdbus_buffer_alloc. cbn [pos size buf]. destruct (_ >? _); reflexivity.
Qed.

Lemma partial_release_frees_no_space_witness :
  exists b1,
    kdbus_buffer_free (mk_buffer 65536 4096 4000 2) 65536 = Done b1 /\
    pos b1 = pos (mk_buffer 65536 4096 4000 2) /\
    users b1 = users (mk_buffer 65536 4096 4000 2) - 1 /\
    snd (kdbus_buffer_alloc b1 200) =
      snd (kdbus_buffer_alloc (mk_buffer 65536 4096 4000 2) 200) /\
    pos (fst (kdbus_buffer_alloc b1 200)) =
      pos (fst (kdbus_buffer_alloc (mk_buffer 65536 4096 4000 2) 200)).
Proof.
  apply (partial_release_frees_no_space (mk_buffer 65536 4096 4000 2) 65536 200).
  - unfold UINT_MAX. simpl. lia.
  - vm_compute. discriminate.
Defined.

(** X2: for a buffer that does not start at address 0 and ends below the top of
    the address space (or when at least one byte is asked for), a [NULL]
    result of allocate means that nothing was taken: cursor and count are
    as before.  So a caller who treats [NULL] as failure never loses a
    slot. *)
Theorem alloc_null_takes_nothing (b : kdbus_buffer) (len : Z) :
  valid_user_range (buf b) (size b) -> 0 <= pos b -> 0 <= len ->
  round_up8 (pos b) + len <= SIZE_MAX ->
  buf b + size b < 2 ^ 64 \/ 0 < len ->
  snd (kdbus_buffer_alloc b len) = NULL ->
  fst (kdbus_buffer_alloc b len) = b.
Proof.
  intros (Hb & Hs & Hend) Hp Hl Hfit Htop.
  destruct (round_up8_bounds (pos b)) as [Hr _].
  unfold kdbus_buffer_alloc.
  rewrite align8_round_up by (try lia; eapply round_up8_fits; eassumption).
  rewrite size_t_small by lia.
  destruct (Z.gtb_spec (round_up8 (pos b) + len) (size b)) as [Hbig | Hok];
    cbn [fst snd]; [reflexivity |].
  rewrite size_t_small by (unfold SIZE_MAX; lia).
  unfold NULL. lia.
Qed.

Lemma alloc_null_takes_nothing_witness :
  fst (kdbus_buffer_alloc (mk_buffer 65536 4096 4000 2) 200) =
    mk_buffer 65536 4096 4000 2.
Proof.
  apply (alloc_null_takes_nothing (mk_buffer 65536 4096 4000 2) 200).
  - unfold valid_user_range. simpl. lia.
  - simpl. lia.
  - lia.
  - vm_compute. discriminate.
  - right. lia.
  - vm_compute. reflexivity.
Defined.

Lemma step_cursor_nonneg (b b' : kdbus_buffer) (o : op) :
  0 <= pos b -> step b o = Some b' -> 0 <= pos b'.
Proof.
  intros Hp. destruct o as [len | msg]; simpl.
  - intros [= <-]. unfold kdbus_buffer_alloc.
    destruct (_ >? _); cbn [fst pos]; [exact Hp | apply size_t_range].
  - destruct (kdbus_buffer_free b msg) eqn:E; [| discriminate].
    intros [= <-]. unfold kdbus_buffer_free in E.
    destruct (msg =? NULL); [injection E as <-; exact Hp |].
    destruct (users b =? 0); [discriminate |].
    destruct (_ =? 0); injection E as <-; cbn [pos]; lia.
Qed.

(** Every slot handed out lies inside the buffer when no sum can wrap
    around. *)
Lemma slots_inside (ops : list op) :
  forall (b : kdbus_buffer) sl,
    0 <= pos b <= size b ->
    Forall (fun o => match o with
                     | Alloc len => 0 <= len /\ size b + 7 + len <= SIZE_MAX
                     | Free _ => True
                     end) ops ->
    slots b ops = Some sl ->
    Forall (fun s => 0 <= fst s /\ 0 <= snd s /\ fst s + snd s <= size b) sl.
Proof.
  induction ops as [| o ops IH]; intros b sl Hp Hops; simpl.
  - intros [= <-]. constructor.
  - destruct (step b o) as [b' |] eqn:Es; [| discriminate].
    destruct (slots b' ops) as [sl' |] eqn:Esl; [| discriminate].
    inversion Hops as [| ? ? Ho Hops']; subst.
    assert (Hsz : size b' = size b) by (eapply step_size; eauto).
    assert (Hp' : 0 <= pos b' <= size b').
    { split; [eapply step_cursor_nonneg; eauto; lia |].
      eapply step_cursor_le_size; eauto; lia. }
    assert (Hin : Forall (fun s => 0 <= fst s /\ 0 <= snd s /\ fst s + snd s <= size b) sl').
    { rewrite <- Hsz. apply (IH b' sl' Hp'); [rewrite Hsz; exact Hops' | exact Esl]. }
    destruct o as [len | msg]; [| intros [= <-]; exact Hin].
    destruct (Z.eqb_spec (snd (kdbus_buffer_alloc b len)) NULL) as [Hn | Hn];
      intros [= <-]; [exact Hin |].
    constructor; [| exact Hin]. cbn [fst snd].
    destruct (alloc_monotone b len ltac:(lia) ltac:(lia) ltac:(lia)) as [_ Hacc].
    destruct (Hacc Hn) as [Hle Hend].
    simpl in Es. injection Es as Es.
    rewrite Es in Hend. lia.
Qed.

(** X6: from a fresh buffer, with lengths too small for any sum to wrap around
    ([size + 7 + len <= SIZE_MAX]) and as long as no release empties the
    buffer, the slots handed out lie inside the buffer and no two of them
    share a byte. *)
Theorem slots_disjoint_inside_buffer (base sz : Z) (ops : list op)
    (ts : list (kdbus_buffer * op * kdbus_buffer)) (sl : list (Z * Z)) :
  0 <= sz ->
  Forall (fun o => match o with
                   | Alloc len => 0 <= len /\ sz + 7 + len <= SIZE_MAX
                   | Free _ => True
                   end) ops ->
  transitions (fresh base sz) ops = Some ts ->
  Forall (fun t : kdbus_buffer * op * kdbus_buffer =>
            let '(s, o, s') := t in users s = 0 \/ users s' <> 0) ts ->
  slots (fresh base sz) ops = Some sl ->
  ForallOrdPairs disjoint sl /\
  Forall (fun s => 0 <= fst s /\ 0 <= snd s /\ fst s + snd s <= sz) sl.
Proof.
  intros Hsz Hops Ht Hnr Hsl. split.
  - apply (slots_disjoint_without_wraparound ops (fresh base sz) ts sl);
      simpl; auto; lia.
  - apply (slots_inside ops (fresh base sz) sl); simpl; auto; lia.
Qed.

Lemma slots_disjoint_inside_buffer_witness :
  ForallOrdPairs disjoint [(0, 100); (104, 100); (208, 8)] /\
  Forall (fun s => 0 <= fst s /\ 0 <= snd s /\ fst s + snd s <= 4096)
         [(0, 100); (104, 100); (208, 8)].
Proof.
  eapply (slots_disjoint_inside_buffer 65536 4096
            [Alloc 100; Alloc 100; Free 65536; Alloc 8]).
  - lia.
  - repeat constructor; unfold SIZE_MAX; lia.
  - vm_compute. reflexivity.
  - repeat (apply Forall_cons;
            [simpl; first [left; reflexivity | right; discriminate] |]).
    apply Forall_nil.
  - vm_compute. reflexivity.
Defined.

(** ** Pinning *)

Lemma land_page_mask (s addr : Z) :
  0 <= s < 64 -> 0 <= addr <= SIZE_MAX ->
  Z.land addr (PAGE_MASK (2 ^ s)) = addr - addr mod 2 ^ s.
Proof.
  intros Hs Ha. unfold PAGE_MASK, size_t.
  assert (Hpow : 0 < 2 ^ s) by (apply Z.pow_pos_nonneg; lia).
  assert (Hm := Z.mod_pos_bound addr (2 ^ s) Hpow).
  assert (Hd := Z.div_mod addr (2 ^ s) ltac:(lia)).
  assert (Hl : Z.land addr (Z.lnot (2 ^ s - 1)) = addr - addr mod 2 ^ s).
  { rewrite <- Z.ldiff_land.
    replace (2 ^ s - 1) with (Z.ones s) by (rewrite Z.ones_equiv; lia).
    rewrite Z.ldiff_ones_r by lia.
    rewrite Z.shiftr_div_pow2, Z.shiftl_mul_pow2 by lia.
    rewrite Z.mod_eq by lia. ring. }
  rewrite <- (Z.land_ones _ 64) by lia.
  rewrite Z.land_assoc, Hl.
  rewrite Z.land_ones by lia.
  assert (Hle : addr mod 2 ^ s <= addr) by (apply Z.mod_le; lia).
  apply Z.mod_small. unfold SIZE_MAX in Ha. lia.
Qed.

Section OpenSuccess.

Variable PAGE_SIZE : Z.

(** What a successful open leaves behind. *)
Lemma open_succeeds (e : env) (to len : Z) (pgs : list page) (k : kernel) :
  kmalloc_ok e = true -> task_has_mm e = true -> gup e = GupPinned pgs ->
  page_count PAGE_SIZE (size_t to) len <= Z.of_nat (length pgs) ->
  page_count PAGE_SIZE (size_t to) len < 2 ^ 31 ->
  0 <= mm_users k ->
  kdbus_buffer_map_open PAGE_SIZE e to len k =
    Some ((0,
           mk_map (Some (firstn (Z.to_nat (page_count PAGE_SIZE (size_t to) len)) pgs))
                  (page_count PAGE_SIZE (size_t to) len) 0
                  (size_t (size_t to - Z.land (size_t to) (PAGE_MASK PAGE_SIZE)))),
          mk_kernel
            (firstn (Z.to_nat (page_count PAGE_SIZE (size_t to) len)) pgs ++ pins k)
            (kmalloced k + 1) (mm_users k) (copied k)).
Proof.
  intros Hk Ht Hg Hlen Hint Hmm.
  destruct (page_count_range PAGE_SIZE (size_t to) len) as [Hn0 Hn1].
  unfold kdbus_buffer_map_open.
  set (n := page_count PAGE_SIZE (size_t to) len) in *.
  unfold bind at 1. unfold kmalloc. rewrite Hk.
  unfold bind at 1. unfold get_task_mm. rewrite Ht. cbn [negb].
  unfold bind at 1. unfold get_user_pages. rewrite Hg.
  assert (Hi : int_of_uint n = n).
  { unfold int_of_uint. destruct (Z.ltb_spec n (2 ^ 31)); lia. }
  rewrite Hi.
  assert (Hgot : Z.of_nat (length (firstn (Z.to_nat n) pgs)) = n).
  { rewrite length_firstn. lia. }
  unfold bind at 1. unfold mmput. cbn [mm_users pins kmalloced copied fst snd].
  destruct (Z.ltb_spec 0 (mm_users k + 1)); [| lia].
  rewrite Hgot.
  destruct (Z.ltb_spec n 0); [lia |].
  cbn [map_pages map_pos map_n].
  rewrite (uint_small n) by lia.
  rewrite Z.ltb_irrefl. unfold ret.
  replace (mm_users k + 1 - 1) with (mm_users k) by lia.
  reflexivity.
Qed.

End OpenSuccess.

Lemma start_position (s to : Z) :
  0 <= s < 64 ->
  size_t (size_t to - Z.land (size_t to) (PAGE_MASK (2 ^ s))) = size_t to mod 2 ^ s /\
  0 <= size_t to mod 2 ^ s < 2 ^ s.
Proof.
  intros Hs.
  assert (Hpow : 0 < 2 ^ s) by (apply Z.pow_pos_nonneg; lia).
  assert (Hm := Z.mod_pos_bound (size_t to) (2 ^ s) Hpow).
  assert (Hr := size_t_range to).
  assert (Hle : size_t to mod 2 ^ s <= size_t to) by (apply Z.mod_le; lia).
  split; [| exact Hm].
  rewrite land_page_mask by assumption.
  replace (size_t to - (size_t to - size_t to mod 2 ^ s)) with (size_t to mod 2 ^ s) by lia.
  apply size_t_small. lia.
Qed.

(** X7: with pages of [2 ^ s] bytes, whenever open got its page array it leaves
    the write cursor at the first byte of the range: page index 0 and, as
    position in the page, the target address modulo the page size.  This
    holds on the failure paths behind the allocation as well. *)
Theorem open_sets_start_position (s : Z) (e : env) (to len : Z) (k k' : kernel)
    (r : Z) (m : kdbus_buffer_map) :
  0 <= s < 64 -> kmalloc_ok e = true ->
  kdbus_buffer_map_open (2 ^ s) e to len k = Some ((r, m), k') ->
  map_cur m = 0 /\ map_pos m = size_t to mod 2 ^ s /\ 0 <= map_pos m < 2 ^ s.
Proof.
  intros Hs Hk.
  destruct (start_position s to Hs) as [Hpos Hrange].
  unfold kdbus_buffer_map_open.
  unfold bind at 1. unfold kmalloc. rewrite Hk.
  unfold bind at 1. unfold get_task_mm.
  destruct (task_has_mm e); cbn [negb].
  2:{ unfold bind at 1.
      destruct (kdbus_buffer_map_close _ _) as [[[] k1] |]; [| discriminate].
      unfold ret. intros [= <- <- <-]. cbn [map_cur map_pos].
      rewrite Hpos. auto. }
  unfold bind at 1.
  destruct (get_user_pages _ _ _) as [[[have got] k1] |]; [| discriminate].
  unfold bind at 1.
  destruct (mmput k1) as [[[] k2] |]; [| discriminate].
  cbn [fst snd map_pos map_pages map_n].
  destruct (have <? 0).
  - unfold bind at 1.
    destruct (kdbus_buffer_map_close _ _) as [[[] k3] |]; [| discriminate].
    unfold ret. intros [= <- <- <-]. cbn [map_cur map_pos]. rewrite Hpos. auto.
  - destruct (uint have <? _).
    + unfold bind at 1.
      destruct (kdbus_buffer_map_close _ _) as [[[] k3] |]; [| discriminate].
      unfold ret. intros [= <- <- <-]. cbn [map_cur map_pos]. rewrite Hpos. auto.
    + unfold ret. intros [= <- <- <-]. cbn [map_cur map_pos]. rewrite Hpos. auto.
Qed.

Lemma open_sets_start_position_witness :
  map_cur (mk_map (Some [11; 12; 13]) 3 0 4000) = 0 /\
  map_pos (mk_map (Some [11; 12; 13]) 3 0 4000) = size_t (2097152 + 4000) mod 2 ^ 12 /\
  0 <= map_pos (mk_map (Some [11; 12; 13]) 3 0 4000) < 2 ^ 12.
Proof.
  apply (open_sets_start_position 12 env_three_pages (2097152 + 4000) 5000 idle_kernel
           (mk_kernel [11; 12; 13] 1 0 []) 0).
  - lia.
  - reflexivity.
  - vm_compute. reflexivity.
Defined.

Lemma page_count_eq (PAGE_SIZE addr len : Z) :
  0 < PAGE_SIZE -> 0 <= addr -> 0 < len -> addr + len <= 2 ^ 64 ->
  boundaries_spanned PAGE_SIZE (addr mod PAGE_SIZE) len < UINT_MAX ->
  page_count PAGE_SIZE addr len =
    boundaries_spanned PAGE_SIZE (addr mod PAGE_SIZE) len + 1.
Proof.
  intros Hps Ha Hl Hend Hbound. unfold boundaries_spanned in *.
  assert (Hm := Z.mod_pos_bound addr PAGE_SIZE Hps).
  assert (Hk : 0 <= (addr mod PAGE_SIZE + len - 1) / PAGE_SIZE)
    by (apply Z.div_pos; lia).
  unfold page_count.
  rewrite (size_t_small (addr + len - 1)) by (unfold SIZE_MAX; lia).
  replace (addr + len - 1)
    with (addr mod PAGE_SIZE + len - 1 + (addr / PAGE_SIZE) * PAGE_SIZE)
    by (rewrite (Z.div_mod addr PAGE_SIZE) at 3 by lia; ring).
  rewrite Z.div_add by lia.
  replace ((addr mod PAGE_SIZE + len - 1) / PAGE_SIZE + addr / PAGE_SIZE
           - addr / PAGE_SIZE + 1)
    with ((addr mod PAGE_SIZE + len - 1) / PAGE_SIZE + 1) by lia.
  unfold UINT_MAX in Hbound.
  rewrite size_t_small by (unfold SIZE_MAX; lia).
  apply uint_small. unfold UINT_MAX. lia.
Qed.

(** X8: for a range of [len > 0] bytes that does not wrap around the address
    space, the page count open computes is one more than the page
    boundaries inside the range: it is at least 1, and it is the least
    number of pages that, counted from the page of the first byte, hold the
    whole range. *)
Theorem page_count_covers_range (PAGE_SIZE addr len : Z) :
  0 < PAGE_SIZE -> 0 <= addr -> 0 < len -> addr + len <= 2 ^ 64 ->
  boundaries_spanned PAGE_SIZE (addr mod PAGE_SIZE) len < UINT_MAX ->
  page_count PAGE_SIZE addr len =
    boundaries_spanned PAGE_SIZE (addr mod PAGE_SIZE) len + 1 /\
  1 <= page_count PAGE_SIZE addr len /\
  (page_count PAGE_SIZE addr len - 1) * PAGE_SIZE < addr mod PAGE_SIZE + len
    <= page_count PAGE_SIZE addr len * PAGE_SIZE.
Proof.
  intros Hps Ha Hl Hend Hbound.
  rewrite (page_count_eq PAGE_SIZE addr len Hps Ha Hl Hend Hbound).
  unfold boundaries_spanned in *.
  assert (Hm := Z.mod_pos_bound addr PAGE_SIZE Hps).
  assert (Hk : 0 <= (addr mod PAGE_SIZE + len - 1) / PAGE_SIZE)
    by (apply Z.div_pos; lia).
  split; [reflexivity |]. split; [lia |].
  replace ((addr mod PAGE_SIZE + len - 1) / PAGE_SIZE + 1 - 1)
    with ((addr mod PAGE_SIZE + len - 1) / PAGE_SIZE) by lia.
  assert (Hd := Z.div_mod (addr mod PAGE_SIZE + len - 1) PAGE_SIZE ltac:(lia)).
  assert (Hr := Z.mod_pos_bound (addr mod PAGE_SIZE + len - 1) PAGE_SIZE Hps).
  split; nia.
Qed.

Lemma page_count_covers_range_witness :
  page_count 4096 (2097152 + 4000) 5000 =
    boundaries_spanned 4096 ((2097152 + 4000) mod 4096) 5000 + 1 /\
  1 <= page_count 4096 (2097152 + 4000) 5000 /\
  (page_count 4096 (2097152 + 4000) 5000 - 1) * 4096
    < (2097152 + 4000) mod 4096 + 5000
    <= page_count 4096 (2097152 + 4000) 5000 * 4096.
Proof.
  apply (page_count_covers_range 4096 (2097152 + 4000) 5000).
  - lia.
  - lia.
  - lia.
  - lia.
  - vm_compute. reflexivity.
Defined.

(** X9: open over an empty range: the page count is 0 when the address is
    page aligned and 1 when it is not; at an aligned address open asks for
    no page, pins nothing and succeeds, with an empty page array that is
    still to be closed. *)
Theorem open_empty_range (PAGE_SIZE : Z) (e : env) (to : Z) (pgs : list page)
    (k : kernel) :
  0 < PAGE_SIZE -> 0 < size_t to ->
  kmalloc_ok e = true -> task_has_mm e = true -> gup e = GupPinned pgs ->
  0 <= mm_users k ->
  page_count PAGE_SIZE (size_t to) 0 =
    (if size_t to mod PAGE_SIZE =? 0 then 0 else 1) /\
  (size_t to mod PAGE_SIZE = 0 ->
     exists p,
       kdbus_buffer_map_open PAGE_SIZE e to 0 k =
         Some ((0, mk_map (Some []) 0 0 p),
               mk_kernel (pins k) (kmalloced k + 1) (mm_users k) (copied k))).
Proof.
  intros Hps Hto Hk Ht Hg Hmm.
  assert (Hr := size_t_range to).
  assert (Hcount : page_count PAGE_SIZE (size_t to) 0 =
                   (if size_t to mod PAGE_SIZE =? 0 then 0 else 1)).
  { unfold page_count.
    replace (size_t to + 0 - 1) with (size_t to - 1) by lia.
    rewrite (size_t_small (size_t to - 1)) by lia.
    assert (Hd := Z.div_mod (size_t to) PAGE_SIZE ltac:(lia)).
    assert (Hm := Z.mod_pos_bound (size_t to) PAGE_SIZE Hps).
    destruct (Z.eqb_spec (size_t to mod PAGE_SIZE) 0) as [Hz | Hnz].
    - assert (Hq : (size_t to - 1) / PAGE_SIZE = size_t to / PAGE_SIZE - 1).
      { symmetry. apply (Z.div_unique _ _ _ (PAGE_SIZE - 1)); lia. }
      rewrite Hq.
      replace (size_t to / PAGE_SIZE - 1 - size_t to / PAGE_SIZE + 1) with 0 by lia.
      reflexivity.
    - assert (Hq : (size_t to - 1) / PAGE_SIZE = size_t to / PAGE_SIZE).
      { symmetry. apply (Z.div_unique _ _ _ (size_t to mod PAGE_SIZE - 1)); lia. }
      rewrite Hq.
      replace (size_t to / PAGE_SIZE - size_t to / PAGE_SIZE + 1) with 1 by lia.
      reflexivity. }
  split; [exact Hcount |].
  intros Hz. rewrite Hz in Hcount. cbn [Z.eqb] in Hcount.
  eexists.
  rewrite (open_succeeds PAGE_SIZE e to 0 pgs k Hk Ht Hg); rewrite ?Hcount; try lia.
  reflexivity.
Qed.

Lemma open_empty_range_witness :
  page_count 4096 (size_t 2097152) 0 =
    (if size_t 2097152 mod 4096 =? 0 then 0 else 1) /\
  (size_t 2097152 mod 4096 = 0 ->
     exists p,
       kdbus_buffer_map_open 4096 env_two_pages 2097152 0 idle_kernel =
         Some ((0, mk_map (Some []) 0 0 p),
               mk_kernel (pins idle_kernel) (kmalloced idle_kernel + 1)
                         (mm_users idle_kernel) (copied idle_kernel))).
Proof.
  apply (open_empty_range 4096 env_two_pages 2097152 [11; 12] idle_kernel).
  - lia.
  - vm_compute. reflexivity.
  - reflexivity.
  - reflexivity.
  - reflexivity.
  - simpl. lia.
Defined.

(** X10: open that succeeds, followed at once by close, leaves the kernel as it
    was before the open: every page pinned is unpinned, the page array is
    freed and nothing has been copied. *)
Theorem open_close_round_trip (PAGE_SIZE : Z) (e : env) (to len : Z)
    (pgs : list page) (k : kernel) :
  kmalloc_ok e = true -> task_has_mm e = true -> gup e = GupPinned pgs ->
  page_count PAGE_SIZE (size_t to) len <= Z.of_nat (length pgs) ->
  page_count PAGE_SIZE (size_t to) len < 2 ^ 31 ->
  0 <= kmalloced k -> 0 <= mm_users k ->
  exists m k1,
    kdbus_buffer_map_open PAGE_SIZE e to len k = Some ((0, m), k1) /\
    pins k1 = firstn (Z.to_nat (page_count PAGE_SIZE (size_t to) len)) pgs ++ pins k /\
    kdbus_buffer_map_close m k1 = Some (tt, k).
Proof.
  intros Hk Ht Hg Hlen Hint Hkm Hmm.
  destruct (page_count_range PAGE_SIZE (size_t to) len) as [Hn0 Hn1].
  do 2 eexists. split; [apply open_succeeds; eassumption |].
  split; [reflexivity |].
  erewrite close_releases; cbn [map_pages map_n pins kmalloced mm_users copied];
    try reflexivity; try lia.
  - replace (kmalloced k + 1 - 1) with (kmalloced k) by lia.
    rewrite kernel_eta. reflexivity.
  - rewrite length_firstn. lia.
Qed.

Lemma open_close_round_trip_witness :
  exists m k1,
    kdbus_buffer_map_open 4096 env_two_pages 2097152 5000 idle_kernel = Some ((0, m), k1) /\
    pins k1 =
      firstn (Z.to_nat (page_count 4096 (size_t 2097152) 5000)) [11; 12]
        ++ pins idle_kernel /\
    kdbus_buffer_map_close m k1 = Some (tt, idle_kernel).
Proof.
  apply (open_close_round_trip 4096 env_two_pages 2097152 5000 [11; 12] idle_kernel).
  - reflexivity.
  - reflexivity.
  - reflexivity.
  - vm_compute. discriminate.
  - vm_compute. reflexivity.
  - simpl. lia.
  - simpl. lia.
Defined.

(** *** Close when other pins are held *)

Lemma drop_pin_count (pg : page) (l : list page) :
  forall l', drop_pin pg l = Some l' ->
    forall x, count_occ Z.eq_dec l x =
              (count_occ Z.eq_dec l' x + (if Z.eq_dec pg x then 1 else 0))%nat.
Proof.
  induction l as [| y l IH]; intros l'; simpl; [discriminate |].
  destruct (Z.eqb_spec y pg) as [-> | Hne].
  - intros [= <-] x. destruct (Z.eq_dec pg x); lia.
  - destruct (drop_pin pg l) as [r |]; [| discriminate].
    intros [= <-] x. simpl. specialize (IH r eq_refl x).
    destruct (Z.eq_dec y x), (Z.eq_dec pg x); try congruence; lia.
Qed.

Lemma drop_pin_held (pg : page) (l : list page) :
  (0 < count_occ Z.eq_dec l pg)%nat -> exists l', drop_pin pg l = Some l'.
Proof.
  induction l as [| y l IH]; simpl; [lia |].
  destruct (Z.eqb_spec y pg) as [-> | Hne]; [eauto |].
  destruct (Z.eq_dec y pg); [contradiction |].
  intros H. destruct (IH H) as [r ->]. eauto.
Qed.

Lemma put_pages_counts (m : kdbus_buffer_map) (suf : list page) :
  forall (pre : list page) (k : kernel),
    map_pages m = Some (pre ++ suf) ->
    Z.of_nat (length (pre ++ suf)) <= UINT_MAX ->
    (forall pg, count_occ Z.eq_dec suf pg <= count_occ Z.eq_dec (pins k) pg)%nat ->
    exists k',
      put_pages m (Z.of_nat (length pre)) (length suf) k = Some (tt, k') /\
      (forall pg, count_occ Z.eq_dec (pins k) pg =
                  (count_occ Z.eq_dec (pins k') pg + count_occ Z.eq_dec suf pg)%nat) /\
      kmalloced k' = kmalloced k /\ mm_users k' = mm_users k /\ copied k' = copied k.
Proof.
  induction suf as [| pg suf IH]; intros pre k Hm Hlen Hheld.
  - exists k. simpl. unfold ret. repeat split; auto.
  - cbn [put_pages length]. unfold bind at 1. unfold page_at. rewrite Hm.
    rewrite Nat2Z.id, nth_error_app2 by lia.
    rewrite Nat.sub_diag. cbn [nth_error]. unfold ret at 1.
    unfold bind at 1. unfold put_page.
    destruct (drop_pin_held pg (pins k)) as [l' Hl'].
    { specialize (Hheld pg). simpl in Hheld.
      destruct (Z.eq_dec pg pg); [lia | contradiction]. }
    rewrite Hl'.
    assert (Hc := drop_pin_count pg (pins k) l' Hl').
    rewrite length_app in Hlen. cbn [length] in Hlen.
    rewrite uint_small by (unfold UINT_MAX in *; lia).
    replace (Z.of_nat (length pre) + 1) with (Z.of_nat (length (pre ++ [pg])))
      by (rewrite length_app; simpl; lia).
    destruct (IH (pre ++ [pg]) (mk_kernel l' (kmalloced k) (mm_users k) (copied k)))
      as (k' & Hrun & Hcnt & Hk1 & Hk2 & Hk3).
    + rewrite <- app_assoc. exact Hm.
    + rewrite !length_app. simpl. unfold UINT_MAX in *. lia.
    + intros x. cbn [pins]. specialize (Hheld x). specialize (Hc x).
      simpl in Hheld. destruct (Z.eq_dec pg x); lia.
    + exists k'. split; [exact Hrun |]. cbn [pins kmalloced mm_users copied] in *.
      repeat split; auto.
      intros x. specialize (Hcnt x). specialize (Hc x). simpl.
      destruct (Z.eq_dec pg x); lia.
Qed.

(** X11: close of a page set whose pages are all still pinned (each as often as
    it occurs in the set), whatever other pins are held and in whatever
    order they were taken: it drops exactly one pin per entry of the set,
    frees the page array and leaves references on the memory space and the
    copies made alone. *)
Theorem close_drops_one_pin_per_entry (m : kdbus_buffer_map) (arr : list page)
    (k : kernel) :
  map_pages m = Some arr ->
  map_n m = Z.of_nat (length arr) -> map_n m <= UINT_MAX ->
  0 < kmalloced k ->
  (forall pg, count_occ Z.eq_dec arr pg <= count_occ Z.eq_dec (pins k) pg)%nat ->
  exists k',
    kdbus_buffer_map_close m k = Some (tt, k') /\
    (forall pg, count_occ Z.eq_dec (pins k') pg =
                (count_occ Z.eq_dec (pins k) pg - count_occ Z.eq_dec arr pg)%nat) /\
    kmalloced k' = kmalloced k - 1 /\ mm_users k' = mm_users k /\
    copied k' = copied k.
Proof.
  intros Hm Hn Hmax Hk Hheld.
  destruct (put_pages_counts m arr [] k Hm ltac:(simpl; lia) Hheld)
    as (k1 & Hrun & Hcnt & Hk1 & Hk2 & Hk3).
  simpl in Hrun.
  unfold kdbus_buffer_map_close. unfold bind.
  rewrite Hn, Nat2Z.id, Hrun.
  unfold kfree. rewrite Hm.
  destruct (Z.ltb_spec 0 (kmalloced k1)); [| lia].
  eexists. split; [reflexivity |]. cbn [pins kmalloced mm_users copied].
  repeat split; try congruence.
  intros pg. specialize (Hcnt pg). lia.
Qed.

Lemma close_drops_one_pin_per_entry_witness :
  exists k',
    kdbus_buffer_map_close (mk_map (Some [11; 12]) 2 0 0)
      busy_kernel = Some (tt, k') /\
    (forall pg, count_occ Z.eq_dec (pins k') pg =
                (count_occ Z.eq_dec (pins busy_kernel) pg
                 - count_occ Z.eq_dec [11; 12]%Z pg)%nat) /\
    kmalloced k' = kmalloced busy_kernel - 1 /\
    mm_users k' = mm_users busy_kernel /\
    copied k' = copied busy_kernel.
Proof.
  apply (close_drops_one_pin_per_entry (mk_map (Some [11; 12]) 2 0 0) [11; 12]
           busy_kernel).
  - reflexivity.
  - reflexivity.
  - vm_compute. discriminate.
  - unfold busy_kernel. simpl. lia.
  - intros pg. unfold busy_kernel. cbn [pins count_occ].
    destruct (Z.eq_dec 11 pg), (Z.eq_dec 12 pg), (Z.eq_dec 21 pg), (Z.eq_dec 22 pg); lia.
Defined.

(** ** The windowed copy, continued *)

Lemma read_user_length_le (umem : Z -> option byte) (cnt : nat) :
  forall a, (length (read_user umem a cnt) <= cnt)%nat.
Proof.
  induction cnt as [| c IH]; intros a; simpl; [lia |].
  destruct (umem a); simpl; [specialize (IH (size_t (a + 1))) |]; lia.
Qed.

Section WriteMore.

Variable PAGE_SIZE : Z.
Variable umem : Z -> option byte.
Variable from : Z.

(** A write only adds to the log of copies. *)
Lemma write_loop_appends (fuel : nat) :
  forall m len k r m' k',
    write_loop PAGE_SIZE fuel umem m from len k = Some ((r, m'), k') ->
    exists new, copied k' = copied k ++ new.
Proof.
  induction fuel as [| fuel IH]; intros m len k r m' k'.
  - simpl. destruct (len >? 0); [discriminate |].
    intros [= <- <- <-]. exists []. rewrite app_nil_r. reflexivity.
  - rewrite write_loop_S. destruct (len >? 0).
    2:{ intros [= <- <- <-]. exists []. rewrite app_nil_r. reflexivity. }
    cbv zeta. unfold bind at 1. unfold page_at.
    destruct (map_pages m) as [arr |] eqn:Ea; [| discriminate].
    destruct (nth_error arr (Z.to_nat (map_cur m))) as [pg |]; [| discriminate].
    unfold ret at 1. unfold bind at 1. unfold copy_from_user.
    destruct (negb _).
    + intros [= <- <- <-]. cbn [copied]. eauto.
    + intros H. apply IH in H. cbn [copied] in H.
      destruct H as [new Hnew]. rewrite <- app_assoc in Hnew. eauto.
Qed.

(** A write leaves pins, allocations and the page array alone, for any
    page size. *)
Lemma write_loop_preserves (fuel : nat) :
  forall m len k r m' k',
    write_loop PAGE_SIZE fuel umem m from len k = Some ((r, m'), k') ->
    pins k' = pins k /\ kmalloced k' = kmalloced k /\ mm_users k' = mm_users k /\
    map_pages m' = map_pages m /\ map_n m' = map_n m /\
    (r = 0 \/ r = - EFAULT).
Proof.
  induction fuel as [| fuel IH]; intros m len k r m' k'.
  - simpl. destruct (len >? 0); [discriminate |].
    intros [= <- <- <-]. repeat split; auto.
  - rewrite write_loop_S. destruct (len >? 0).
    2:{ intros [= <- <- <-]. repeat split; auto. }
    cbv zeta. unfold bind at 1. unfold page_at.
    destruct (map_pages m) as [arr |] eqn:Ea; [| discriminate].
    destruct (nth_error arr (Z.to_nat (map_cur m))) as [pg |]; [| discriminate].
    unfold ret at 1. unfold bind at 1. unfold copy_from_user.
    destruct (negb _).
    + intros [= <- <- <-]. simpl. repeat split; auto.
    + intros H. apply IH in H.
      cbn [map_pos map_pages map_n pins kmalloced mm_users] in H.
      destruct H as (H1 & H2 & H3 & H4 & H5 & H6).
      repeat split; auto.
      * rewrite H4. destruct (_ =? PAGE_SIZE); reflexivity.
      * rewrite H5. destruct (_ =? PAGE_SIZE); reflexivity.
Qed.

(** When a write fails, the last copy logged is the one that faulted, and
    the write cursor still points at it: the page of the cursor is the page
    of that copy and the position of the cursor is where the copy began. *)
Lemma write_loop_fault_cursor (fuel : nat) :
  forall m len k r m' k',
    write_loop PAGE_SIZE fuel umem m from len k = Some ((r, m'), k') ->
    r <> 0 ->
    exists before c arr,
      copied k' = copied k ++ before ++ [c] /\
      map_pages m' = Some arr /\
      nth_error arr (Z.to_nat (map_cur m')) = Some (cp_page c) /\
      cp_pos c = map_pos m' /\
      Z.of_nat (length (cp_data c)) < size_t (PAGE_SIZE - map_pos m').
Proof.
  induction fuel as [| fuel IH]; intros m len k r m' k'.
  - simpl. destruct (len >? 0); [discriminate |].
    intros [= <- <- <-] H. contradiction.
  - rewrite write_loop_S. destruct (Z.gtb_spec len 0) as [Hgt | Hle].
    2:{ intros [= <- <- <-] H. contradiction. }
    cbv zeta. unfold bind at 1. unfold page_at.
    destruct (map_pages m) as [arr |] eqn:Ea; [| discriminate].
    destruct (nth_error arr (Z.to_nat (map_cur m))) as [pg |] eqn:Epg; [| discriminate].
    unfold ret at 1. unfold bind at 1. unfold copy_from_user.
    set (bytes := Z.min (size_t (PAGE_SIZE - map_pos m)) len).
    destruct (Z.eqb_spec (bytes - Z.of_nat (length (read_user umem from (Z.to_nat bytes)))) 0)
      as [Hz | Hnz]; cbn [negb].
    + intros H Hr. apply IH in H; [| exact Hr]. cbn [copied] in H.
      destruct H as (before & c & arr' & Hlog & Hrest).
      rewrite <- app_assoc in Hlog. cbn [app] in Hlog.
      exists (mk_copy pg (map_pos m) (read_user umem from (Z.to_nat bytes)) :: before), c, arr'.
      split; [exact Hlog | exact Hrest].
    + intros [= <- <- <-] _. cbn [copied].
      exists [], (mk_copy pg (map_pos m) (read_user umem from (Z.to_nat bytes))), arr.
      cbn [app cp_page cp_pos cp_data].
      repeat split; auto.
      assert (Hle := read_user_length_le umem (Z.to_nat bytes) from).
      assert (Hs := size_t_range (PAGE_SIZE - map_pos m)).
      unfold bytes in *. lia.
Qed.

Hypothesis page_size_pos : 0 < PAGE_SIZE <= SIZE_MAX.

Lemma skipn_nth_error (A : Type) (l : list A) :
  forall i x, nth_error l i = Some x -> skipn i l = x :: skipn (S i) l.
Proof.
  induction l as [| y l IH]; intros [| i] x H; simpl in *; try discriminate.
  - injection H as ->. reflexivity.
  - apply IH. exact H.
Qed.

Lemma write_loop_nothing_left (fuel : nat) (m : kdbus_buffer_map) (k : kernel) :
  write_loop PAGE_SIZE fuel umem m from 0 k = Some ((0, m), k).
Proof. destruct fuel; reflexivity. Qed.

(** Where the windows of a successful write go: to the pages of the array
    from the current one on, one window per page, the first at the current
    position and the others at the start of their page. *)
Lemma write_loop_layout (fuel : nat) :
  forall m arr len k,
    (Z.to_nat len < fuel)%nat ->
    map_pages m = Some arr -> Z.of_nat (length arr) <= SIZE_MAX ->
    0 <= map_pos m < PAGE_SIZE -> 0 <= map_cur m ->
    0 < len <= SIZE_MAX ->
    map_cur m + (map_pos m + len - 1) / PAGE_SIZE < Z.of_nat (length arr) ->
    length (read_user umem from (Z.to_nat (Z.min len PAGE_SIZE))) =
      Z.to_nat (Z.min len PAGE_SIZE) ->
    exists m' new,
      write_loop PAGE_SIZE fuel umem m from len k =
        Some ((0, m'),
              mk_kernel (pins k) (kmalloced k) (mm_users k) (copied k ++ new)) /\
      map cp_page new = firstn (length new) (skipn (Z.to_nat (map_cur m)) arr) /\
      map cp_pos new = map_pos m :: repeat 0 (length new - 1).
Proof.
  induction fuel as [| fuel IH]; intros m arr len k Hfuel Ha Harr Hpos Hcur Hlen Hpages Hread;
    [lia |].
  rewrite write_loop_S.
  destruct (Z.gtb_spec len 0) as [Hgt | Hle]; [| lia].
  cbv zeta.
  rewrite (size_t_small (PAGE_SIZE - map_pos m)) by lia.
  set (bytes := Z.min (PAGE_SIZE - map_pos m) len).
  assert (Hb : 0 < bytes <= len /\ bytes <= PAGE_SIZE - map_pos m) by (unfold bytes; lia).
  assert (Hdiv : 0 <= (map_pos m + len - 1) / PAGE_SIZE) by (apply Z.div_pos; lia).
  unfold bind at 1. unfold page_at. rewrite Ha.
  destruct (nth_error arr (Z.to_nat (map_cur m))) as [pg |] eqn:Epg.
  2:{ apply nth_error_None in Epg. lia. }
  unfold ret at 1. unfold bind at 1. unfold copy_from_user.
  assert (Hfull : length (read_user umem from (Z.to_nat bytes)) = Z.to_nat bytes).
  { eapply read_user_full_le; [| exact Hread]. lia. }
  rewrite Hfull, Z2Nat.id, Z.sub_diag by lia. cbn [Z.eqb negb].
  cbn [map_pos map_cur map_pages map_n].
  rewrite (size_t_small (map_pos m + bytes)) by lia.
  rewrite (size_t_small (len - bytes)) by lia.
  set (m2 := if map_pos m + bytes =? PAGE_SIZE then _ else _).
  set (c := mk_copy pg (map_pos m) (read_user umem from (Z.to_nat bytes))).
  rewrite (skipn_nth_error _ arr _ _ Epg).
  destruct (Z.eq_dec (len - bytes) 0) as [Hz | Hnz].
  - rewrite Hz, write_loop_nothing_left.
    exists m2, [c]. cbn [pins kmalloced mm_users copied].
    repeat split.
  - destruct (cursor_advance PAGE_SIZE page_size_pos m arr len Ha Harr Hpos Hcur Hgt Hpages
                bytes m2 eq_refl eq_refl)
      as (Ha2 & Hp2 & Hlin & Hpos2 & Hcur2 & Hpages2).
    assert (He : map_pos m + bytes = PAGE_SIZE) by (unfold bytes in *; lia).
    assert (Hcur2' : map_cur m2 = map_cur m + 1).
    { unfold m2. rewrite He, Z.eqb_refl. cbn [map_cur].
      apply size_t_small. lia. }
    rewrite He, Z.eqb_refl in Hp2.
    destruct (IH m2 arr (len - bytes)
                 (mk_kernel (pins k) (kmalloced k) (mm_users k) (copied k ++ [c]))
                 ltac:(lia) Ha2 Harr Hpos2 Hcur2 ltac:(lia) ltac:(apply Hpages2; lia))
      as (m' & new & Hrun & Hpg & Hps).
    { eapply read_user_full_le; [| exact Hread]. lia. }
    exists m', (c :: new).
    split; [| split].
    + rewrite Hrun. cbn [pins kmalloced mm_users copied].
      rewrite <- app_assoc. reflexivity.
    + cbn [map length firstn cp_page c]. f_equal.
      rewrite Hpg, Hcur2'. f_equal. f_equal. lia.
    + cbn [map length cp_pos c]. f_equal.
      rewrite Hps, Hp2.
      destruct new as [| c' new']; [discriminate Hps |].
      cbn [length Nat.sub]. rewrite ?Nat.sub_0_r. reflexivity.
Qed.

End WriteMore.

(** X12: whatever it returns, a write drops no pin, frees nothing and leaves the
    page array and its length as they are; the only thing it does to the
    kernel is to add copies to the log; and its result is 0 or [-EFAULT]. *)
Theorem write_never_unpins (PAGE_SIZE : Z) (umem : Z -> option byte)
    (m m' : kdbus_buffer_map) (from len r : Z) (k k' : kernel) :
  kdbus_buffer_map_write PAGE_SIZE umem m from len k = Some ((r, m'), k') ->
  pins k' = pins k /\ kmalloced k' = kmalloced k /\ mm_users k' = mm_users k /\
  map_pages m' = map_pages m /\ map_n m' = map_n m /\
  (r = 0 \/ r = - EFAULT) /\
  exists new, copied k' = copied k ++ new.
Proof.
  unfold kdbus_buffer_map_write. intros H.
  destruct (write_loop_preserves _ _ _ _ _ _ _ _ _ _ H) as (H1 & H2 & H3 & H4 & H5 & H6).
  repeat split; auto.
  eapply write_loop_appends. exact H.
Qed.

Lemma write_never_unpins_witness :
  exists r m' k',
    kdbus_buffer_map_write 4096 (sender_mem 65536 4) (mk_map (Some [11; 12]) 2 0 4090)
      65536 10 busy_kernel = Some ((r, m'), k') /\
    pins k' = pins busy_kernel /\ kmalloced k' = kmalloced busy_kernel /\
    mm_users k' = mm_users busy_kernel /\
    map_pages m' = map_pages (mk_map (Some [11; 12]) 2 0 4090) /\
    map_n m' = map_n (mk_map (Some [11; 12]) 2 0 4090) /\
    (r = 0 \/ r = - EFAULT) /\
    exists new, copied k' = copied busy_kernel ++ new.
Proof.
  do 3 eexists. split.
  - vm_compute. reflexivity.
  - apply (write_never_unpins 4096 (sender_mem 65536 4) (mk_map (Some [11; 12]) 2 0 4090)
             _ 65536 10 _ busy_kernel _).
    vm_compute. reflexivity.
Defined.

(** X13: when a write fails, the copy that faulted is the last one in the log
    and the write cursor has stayed on it: the cursor's page is the page of
    that copy, the cursor's position is where that copy began, and the copy
    is shorter than the rest of the page. *)
Theorem write_fault_points_at_window (PAGE_SIZE : Z) (umem : Z -> option byte)
    (m m' : kdbus_buffer_map) (from len r : Z) (k k' : kernel) :
  kdbus_buffer_map_write PAGE_SIZE umem m from len k = Some ((r, m'), k') ->
  r <> 0 ->
  r = - EFAULT /\
  exists before c arr,
    copied k' = copied k ++ before ++ [c] /\
    map_pages m' = Some arr /\
    nth_error arr (Z.to_nat (map_cur m')) = Some (cp_page c) /\
    cp_pos c = map_pos m' /\
    Z.of_nat (length (cp_data c)) < size_t (PAGE_SIZE - map_pos m').
Proof.
  unfold kdbus_buffer_map_write. intros H Hr. split.
  - destruct (write_loop_preserves _ _ _ _ _ _ _ _ _ _ H) as (_ & _ & _ & _ & _ & [H0 | H0]);
      [contradiction | exact H0].
  - eapply write_loop_fault_cursor; eassumption.
Qed.

Lemma write_fault_points_at_window_witness :
  exists r m' k',
    kdbus_buffer_map_write 4096 (sender_mem 65536 100) (mk_map (Some [11; 12; 13]) 3 0 4090)
      65536 5000 idle_kernel = Some ((r, m'), k') /\
    r = - EFAULT /\
    exists before c arr,
      copied k' = copied idle_kernel ++ before ++ [c] /\
      map_pages m' = Some arr /\
      nth_error arr (Z.to_nat (map_cur m')) = Some (cp_page c) /\
      cp_pos c = map_pos m' /\
      Z.of_nat (length (cp_data c)) < size_t (4096 - map_pos m').
Proof.
  do 3 eexists. split.
  - vm_compute. reflexivity.
  - apply (write_fault_points_at_window 4096 (sender_mem 65536 100)
             (mk_map (Some [11; 12; 13]) 3 0 4090) _ 65536 5000 _ idle_kernel _).
    + vm_compute. reflexivity.
    + unfold EFAULT. lia.
Defined.

(** X14: a write of [len > 0] bytes whose source is readable, through a page
    array that is long enough: it makes one windowed copy per page touched,
    one more than the page boundaries inside the range; the copies go to
    the pages of the array from the current one on, in order, the first at
    the current position and every other one at the start of its page; no
    copy is larger than a page, together they are [len] bytes, and the
    write cursor ends [len] bytes further on. *)
Theorem write_window_layout (PAGE_SIZE : Z) (umem : Z -> option byte)
    (m : kdbus_buffer_map) (arr : list page) (from len : Z) (k : kernel) :
  0 < PAGE_SIZE <= SIZE_MAX ->
  map_pages m = Some arr -> Z.of_nat (length arr) <= SIZE_MAX ->
  0 <= map_pos m < PAGE_SIZE -> 0 <= map_cur m ->
  0 < len <= SIZE_MAX ->
  map_cur m + boundaries_spanned PAGE_SIZE (map_pos m) len < Z.of_nat (length arr) ->
  length (read_user umem from (Z.to_nat (Z.min len PAGE_SIZE))) =
    Z.to_nat (Z.min len PAGE_SIZE) ->
  exists m' new,
    kdbus_buffer_map_write PAGE_SIZE umem m from len k =
      Some ((0, m'),
            mk_kernel (pins k) (kmalloced k) (mm_users k) (copied k ++ new)) /\
    Z.of_nat (length new) = boundaries_spanned PAGE_SIZE (map_pos m) len + 1 /\
    map cp_page new = firstn (length new) (skipn (Z.to_nat (map_cur m)) arr) /\
    map cp_pos new = map_pos m :: repeat 0 (length new - 1) /\
    Forall (fun c => 0 < Z.of_nat (length (cp_data c)) <= PAGE_SIZE) new /\
    fold_right Z.add 0 (map (fun c => Z.of_nat (length (cp_data c))) new) = len /\
    map_cur m' * PAGE_SIZE + map_pos m' = map_cur m * PAGE_SIZE + map_pos m + len /\
    0 <= map_pos m' < PAGE_SIZE.
Proof.
  intros Hps Ha Harr Hpos Hcur Hlen Hpages Hread.
  unfold kdbus_buffer_map_write.
  destruct (write_loop_windows PAGE_SIZE umem from Hps (S (Z.to_nat len)) m arr len k
              ltac:(lia) Ha Harr Hpos Hcur ltac:(lia) ltac:(intros _; exact Hpages) Hread)
    as (m' & new & Hrun & Hsizes & _ & Hlin & Hpos').
  destruct (write_loop_layout PAGE_SIZE umem from Hps (S (Z.to_nat len)) m arr len k
              ltac:(lia) Ha Harr Hpos Hcur Hlen Hpages Hread)
    as (m2 & new2 & Hrun2 & Hpg & Hcp).
  rewrite Hrun in Hrun2. injection Hrun2 as Hm Hnew.
  apply app_inv_head in Hnew. subst m2 new2.
  destruct (chunk_sizes_shape PAGE_SIZE Hps (S (Z.to_nat len)) (map_pos m) len
              ltac:(lia) Hpos ltac:(lia)) as (Hcount & Hall & Hsum).
  rewrite <- Hsizes in Hcount, Hall, Hsum.
  rewrite length_map in Hcount. rewrite Forall_map in Hall.
  exists m', new. repeat split; auto; lia.
Qed.

Lemma write_window_layout_witness :
  exists m' new,
    kdbus_buffer_map_write 4096 (sender_mem 65536 5000)
      (mk_map (Some [11; 12; 13]) 3 0 4000) 65536 5000 idle_kernel =
      Some ((0, m'),
            mk_kernel (pins idle_kernel) (kmalloced idle_kernel) (mm_users idle_kernel)
                      (copied idle_kernel ++ new)) /\
    Z.of_nat (length new) =
      boundaries_spanned 4096 (map_pos (mk_map (Some [11; 12; 13]) 3 0 4000)) 5000 + 1 /\
    map cp_page new =
      firstn (length new)
        (skipn (Z.to_nat (map_cur (mk_map (Some [11; 12; 13]) 3 0 4000))) [11; 12; 13]) /\
    map cp_pos new =
      map_pos (mk_map (Some [11; 12; 13]) 3 0 4000) :: repeat 0 (length new - 1) /\
    Forall (fun c => 0 < Z.of_nat (length (cp_data c)) <= 4096) new /\
    fold_right Z.add 0 (map (fun c => Z.of_nat (length (cp_data c))) new) = 5000 /\
    map_cur m' * 4096 + map_pos m' =
      map_cur (mk_map (Some [11; 12; 13]) 3 0 4000) * 4096
      + map_pos (mk_map (Some [11; 12; 13]) 3 0 4000) + 5000 /\
    0 <= map_pos m' < 4096.
Proof.
  apply (write_window_layout 4096 (sender_mem 65536 5000)
           (mk_map (Some [11; 12; 13]) 3 0 4000) [11; 12; 13] 65536 5000 idle_kernel).
  - unfold SIZE_MAX. lia.
  - reflexivity.
  - unfold SIZE_MAX. simpl. lia.
  - simpl. lia.
  - simpl. lia.
  - unfold SIZE_MAX. lia.
  - vm_compute. reflexivity.
  - vm_compute. reflexivity.
Defined.

(** X15: open and write fit together: after a successful open over a range of
    [len > 0] bytes (pages of [2 ^ s] bytes, fewer than [2 ^ 31] of them,
    the range not wrapping around), a write of [len] bytes from a readable
    source succeeds, makes exactly one windowed copy into each pinned page,
    in the order of the pages, and leaves every pin in place for close. *)
Theorem open_then_write_fills_each_page (s : Z) (e : env) (to len : Z)
    (pgs : list page) (umem : Z -> option byte) (from : Z) (k : kernel) :
  0 <= s < 64 ->
  kmalloc_ok e = true -> task_has_mm e = true -> gup e = GupPinned pgs ->
  0 < len <= SIZE_MAX -> size_t to + len <= 2 ^ 64 ->
  boundaries_spanned (2 ^ s) (size_t to mod 2 ^ s) len + 1 < 2 ^ 31 ->
  boundaries_spanned (2 ^ s) (size_t to mod 2 ^ s) len + 1 <= Z.of_nat (length pgs) ->
  0 <= mm_users k ->
  length (read_user umem from (Z.to_nat (Z.min len (2 ^ s)))) =
    Z.to_nat (Z.min len (2 ^ s)) ->
  exists m k1 m' new,
    kdbus_buffer_map_open (2 ^ s) e to len k = Some ((0, m), k1) /\
    map_n m = boundaries_spanned (2 ^ s) (size_t to mod 2 ^ s) len + 1 /\
    kdbus_buffer_map_write (2 ^ s) umem m from len k1 =
      Some ((0, m'),
            mk_kernel (pins k1) (kmalloced k1) (mm_users k1) (copied k ++ new)) /\
    Some (map cp_page new) = map_pages m /\
    Z.of_nat (length new) = map_n m /\
    pins k1 = map cp_page new ++ pins k.
Proof.
  intros Hs Hk Ht Hg Hlen Hend Hint Hpgs Hmm Hread.
  assert (Hpow : 0 < 2 ^ s) by (apply Z.pow_pos_nonneg; lia).
  assert (Hpow' : 2 ^ s <= SIZE_MAX).
  { unfold SIZE_MAX. assert (2 ^ s <= 2 ^ 63) by (apply Z.pow_le_mono_r; lia). lia. }
  assert (Hr := size_t_range to).
  destruct (start_position s to Hs) as [Hpos Hrange].
  set (n := boundaries_spanned (2 ^ s) (size_t to mod 2 ^ s) len + 1) in *.
  assert (Hn : page_count (2 ^ s) (size_t to) len = n).
  { apply page_count_eq; try lia. unfold UINT_MAX. fold n. lia. }
  assert (Hn0 : 1 <= n).
  { unfold n, boundaries_spanned.
    assert (0 <= (size_t to mod 2 ^ s + len - 1) / 2 ^ s) by (apply Z.div_pos; lia). lia. }
  assert (Hopen := open_succeeds (2 ^ s) e to len pgs k Hk Ht Hg
                     ltac:(rewrite Hn; exact Hpgs) ltac:(rewrite Hn; exact Hint) Hmm).
  rewrite Hn, Hpos in Hopen.
  set (arr := firstn (Z.to_nat n) pgs) in *.
  assert (Harr : Z.of_nat (length arr) = n).
  { unfold arr. rewrite length_firstn. lia. }
  assert (Harr' : Z.of_nat (length arr) <= SIZE_MAX) by (unfold SIZE_MAX; lia).
  set (m := mk_map (Some arr) n 0 (size_t to mod 2 ^ s)) in *.
  set (k1 := mk_kernel (arr ++ pins k) (kmalloced k + 1) (mm_users k) (copied k)) in *.
  destruct (write_loop_windows (2 ^ s) umem from ltac:(lia) (S (Z.to_nat len)) m arr len k1
              ltac:(lia) eq_refl Harr' Hrange ltac:(simpl; lia) ltac:(lia))
    as (m' & new & Hrun & Hsizes & _ & _ & _).
  { intros _. cbn [map_cur map_pos m]. unfold n, boundaries_spanned in *. lia. }
  { exact Hread. }
  destruct (write_loop_layout (2 ^ s) umem from ltac:(lia) (S (Z.to_nat len)) m arr len k1
              ltac:(lia) eq_refl Harr' Hrange ltac:(simpl; lia) Hlen)
    as (m2 & new2 & Hrun2 & Hpg & _).
  { cbn [map_cur map_pos m]. unfold n, boundaries_spanned in *. lia. }
  { exact Hread. }
  rewrite Hrun in Hrun2. injection Hrun2 as _ Hnew.
  apply app_inv_head in Hnew. subst new2.
  destruct (chunk_sizes_shape (2 ^ s) ltac:(lia) (S (Z.to_nat len)) (size_t to mod 2 ^ s) len
              ltac:(lia) Hrange ltac:(lia)) as (Hcount & _ & _).
  cbn [map_pos m] in Hsizes. rewrite <- Hsizes, length_map in Hcount. fold n in Hcount.
  assert (Hpages : map cp_page new = arr).
  { rewrite Hpg. cbn [map_cur m]. simpl skipn.
    apply firstn_all2. lia. }
  exists m, k1, m', new.
  split; [exact Hopen |]. split; [reflexivity |].
  split; [exact Hrun |].
  split; [rewrite Hpages; reflexivity |].
  split; [exact Hcount |].
  rewrite Hpages. reflexivity.
Qed.

Lemma open_then_write_fills_each_page_witness :
  exists m k1 m' new,
    kdbus_buffer_map_open (2 ^ 12) env_three_pages (2097152 + 4000) 5000 idle_kernel =
      Some ((0, m), k1) /\
    map_n m = boundaries_spanned (2 ^ 12) (size_t (2097152 + 4000) mod 2 ^ 12) 5000 + 1 /\
    kdbus_buffer_map_write (2 ^ 12) (sender_mem 65536 5000) m 65536 5000 k1 =
      Some ((0, m'),
            mk_kernel (pins k1) (kmalloced k1) (mm_users k1) (copied idle_kernel ++ new)) /\
    Some (map cp_page new) = map_pages m /\
    Z.of_nat (length new) = map_n m /\
    pins k1 = map cp_page new ++ pins idle_kernel.
Proof.
  apply (open_then_write_fills_each_page 12 env_three_pages (2097152 + 4000) 5000
           [11; 12; 13] (sender_mem 65536 5000) 65536 idle_kernel).
  - lia.
  - reflexivity.
  - reflexivity.
  - reflexivity.
  - unfold SIZE_MAX. lia.
  - vm_compute. discriminate.
  - vm_compute. reflexivity.
  - vm_compute. discriminate.
  - simpl. lia.
  - vm_compute. reflexivity.
Defined.

(** X16: after a successful open over a range of [len > 0] bytes that does
    not wrap around and has fewer than [2 ^ 31] pages (pages of [2 ^ s]
    bytes), a write of [len] bytes stays inside the page array whatever the
    sender's memory holds: it returns 0 or [-EFAULT], and the pins taken by
    open are all still held afterwards.  The bound on the pages is needed:
    beyond it the page count is truncated and the array is too short. *)
Theorem open_then_write_stays_in_array (s : Z) (e : env) (to len : Z)
    (pgs : list page) (umem : Z -> option byte) (from : Z) (k : kernel) :
  0 <= s < 64 ->
  kmalloc_ok e = true -> task_has_mm e = true -> gup e = GupPinned pgs ->
  0 < len <= SIZE_MAX -> size_t to + len <= 2 ^ 64 ->
  boundaries_spanned (2 ^ s) (size_t to mod 2 ^ s) len + 1 < 2 ^ 31 ->
  boundaries_spanned (2 ^ s) (size_t to mod 2 ^ s) len + 1 <= Z.of_nat (length pgs) ->
  0 <= mm_users k ->
  exists m k1 r m' k2,
    kdbus_buffer_map_open (2 ^ s) e to len k = Some ((0, m), k1) /\
    kdbus_buffer_map_write (2 ^ s) umem m from len k1 = Some ((r, m'), k2) /\
    (r = 0 \/ r = - EFAULT) /\
    pins k2 = pins k1 /\ map_pages m' = map_pages m /\ map_n m' = map_n m.
Proof.
  intros Hs Hk Ht Hg Hlen Hend Hint Hpgs Hmm.
  assert (Hpow : 0 < 2 ^ s) by (apply Z.pow_pos_nonneg; lia).
  assert (Hpow' : 2 ^ s <= SIZE_MAX).
  { unfold SIZE_MAX. assert (2 ^ s <= 2 ^ 63) by (apply Z.pow_le_mono_r; lia). lia. }
  assert (Hr := size_t_range to).
  destruct (start_position s to Hs) as [Hpos Hrange].
  set (n := boundaries_spanned (2 ^ s) (size_t to mod 2 ^ s) len + 1) in *.
  assert (Hn : page_count (2 ^ s) (size_t to) len = n).
  { apply page_count_eq; try lia. unfold UINT_MAX. fold n. lia. }
  assert (Hopen := open_succeeds (2 ^ s) e to len pgs k Hk Ht Hg
                     ltac:(rewrite Hn; exact Hpgs) ltac:(rewrite Hn; exact Hint) Hmm).
  rewrite Hn, Hpos in Hopen.
  set (arr := firstn (Z.to_nat n) pgs) in *.
  assert (Harr : Z.of_nat (length arr) = n).
  { unfold arr. rewrite length_firstn.
    unfold n, boundaries_spanned in *.
    assert (0 <= (size_t to mod 2 ^ s + len - 1) / 2 ^ s) by (apply Z.div_pos; lia). lia. }
  assert (Harr' : Z.of_nat (length arr) <= SIZE_MAX) by (unfold SIZE_MAX; lia).
  set (m := mk_map (Some arr) n 0 (size_t to mod 2 ^ s)) in *.
  set (k1 := mk_kernel (arr ++ pins k) (kmalloced k + 1) (mm_users k) (copied k)) in *.
  destruct (write_loop_returns (2 ^ s) umem from ltac:(lia) (S (Z.to_nat len)) m arr len k1
              ltac:(lia) eq_refl Harr' Hrange ltac:(simpl; lia) ltac:(lia))
    as (r & m' & k2 & Hrun).
  { intros _. cbn [map_cur map_pos m]. unfold n, boundaries_spanned in *. lia. }
  destruct (write_loop_preserves _ _ _ _ _ _ _ _ _ _ Hrun) as (H1 & _ & _ & H4 & H5 & H6).
  exists m, k1, r, m', k2. repeat split; auto.
Qed.

Lemma open_then_write_stays_in_array_witness :
  exists m k1 r m' k2,
    kdbus_buffer_map_open (2 ^ 12) env_three_pages (2097152 + 4000) 5000 idle_kernel =
      Some ((0, m), k1) /\
    kdbus_buffer_map_write (2 ^ 12) (sender_mem 65536 100) m 65536 5000 k1 =
      Some ((r, m'), k2) /\
    (r = 0 \/ r = - EFAULT) /\
    pins k2 = pins k1 /\ map_pages m' = map_pages m /\ map_n m' = map_n m.
Proof.
  apply (open_then_write_stays_in_array 12 env_three_pages (2097152 + 4000) 5000
           [11; 12; 13] (sender_mem 65536 100) 65536 idle_kernel).
  - lia.
  - reflexivity.
  - reflexivity.
  - reflexivity.
  - unfold SIZE_MAX. lia.
  - vm_compute. discriminate.
  - vm_compute. reflexivity.
  - vm_compute. discriminate.
  - simpl. lia.
Defined.

(** X17: two writes in a row through one page set: when the array holds room
    for both and both sources are readable, the second write goes on
    exactly where the first one ended, and after both the write cursor is
    [len1 + len2] bytes beyond where it began. *)
Theorem write_continues_where_it_ended (PAGE_SIZE : Z) (umem : Z -> option byte)
    (m : kdbus_buffer_map) (arr : list page) (from1 len1 from2 len2 : Z) (k : kernel) :
  0 < PAGE_SIZE <= SIZE_MAX ->
  map_pages m = Some arr -> Z.of_nat (length arr) <= SIZE_MAX ->
  0 <= map_pos m < PAGE_SIZE -> 0 <= map_cur m ->
  0 < len1 <= SIZE_MAX -> 0 < len2 <= SIZE_MAX ->
  map_cur m * PAGE_SIZE + map_pos m + len1 + len2 <= Z.of_nat (length arr) * PAGE_SIZE ->
  length (read_user umem from1 (Z.to_nat (Z.min len1 PAGE_SIZE))) =
    Z.to_nat (Z.min len1 PAGE_SIZE) ->
  length (read_user umem from2 (Z.to_nat (Z.min len2 PAGE_SIZE))) =
    Z.to_nat (Z.min len2 PAGE_SIZE) ->
  exists m1 k1 m2 k2 new1 new2,
    kdbus_buffer_map_write PAGE_SIZE umem m from1 len1 k = Some ((0, m1), k1) /\
    kdbus_buffer_map_write PAGE_SIZE umem m1 from2 len2 k1 = Some ((0, m2), k2) /\
    map_cur m1 * PAGE_SIZE + map_pos m1 = map_cur m * PAGE_SIZE + map_pos m + len1 /\
    map_cur m2 * PAGE_SIZE + map_pos m2 =
      map_cur m * PAGE_SIZE + map_pos m + len1 + len2 /\
    copied k2 = copied k ++ new1 ++ new2 /\
    fold_right Z.add 0 (map (fun c => Z.of_nat (length (cp_data c))) new1) = len1 /\
    fold_right Z.add 0 (map (fun c => Z.of_nat (length (cp_data c))) new2) = len2 /\
    pins k2 = pins k.
Proof.
  intros Hps Ha Harr Hpos Hcur Hlen1 Hlen2 Hroom Hread1 Hread2.
  unfold kdbus_buffer_map_write.
  assert (Hfit : forall c p l, 0 <= p < PAGE_SIZE -> 0 < l ->
                   c * PAGE_SIZE + p + l <= Z.of_nat (length arr) * PAGE_SIZE ->
                   c + (p + l - 1) / PAGE_SIZE < Z.of_nat (length arr)).
  { intros c p l Hp Hl Hle.
    replace (c + (p + l - 1) / PAGE_SIZE) with ((p + l - 1 + c * PAGE_SIZE) / PAGE_SIZE)
      by (rewrite Z.div_add by lia; lia).
    apply Z.div_lt_upper_bound; lia. }
  destruct (write_loop_windows PAGE_SIZE umem from1 Hps (S (Z.to_nat len1)) m arr len1 k
              ltac:(lia) Ha Harr Hpos Hcur ltac:(lia)
              ltac:(intros _; apply Hfit; lia) Hread1)
    as (m1 & new1 & Hrun1 & Hsz1 & _ & Hlin1 & Hpos1).
  destruct (write_loop_preserves _ _ _ _ _ _ _ _ _ _ Hrun1) as (_ & _ & _ & Ha1 & _ & _).
  rewrite Ha in Ha1.
  assert (Hcur1 : 0 <= map_cur m1) by nia.
  set (k1 := mk_kernel (pins k) (kmalloced k) (mm_users k) (copied k ++ new1)) in *.
  destruct (write_loop_windows PAGE_SIZE umem from2 Hps (S (Z.to_nat len2)) m1 arr len2 k1
              ltac:(lia) Ha1 Harr Hpos1 Hcur1 ltac:(lia)
              ltac:(intros _; apply Hfit; lia) Hread2)
    as (m2 & new2 & Hrun2 & Hsz2 & _ & Hlin2 & Hpos2).
  destruct (chunk_sizes_shape PAGE_SIZE Hps (S (Z.to_nat len1)) (map_pos m) len1
              ltac:(lia) Hpos ltac:(lia)) as (_ & _ & Hsum1).
  destruct (chunk_sizes_shape PAGE_SIZE Hps (S (Z.to_nat len2)) (map_pos m1) len2
              ltac:(lia) Hpos1 ltac:(lia)) as (_ & _ & Hsum2).
  rewrite <- Hsz1 in Hsum1. rewrite <- Hsz2 in Hsum2.
  exists m1, k1, m2,
    (mk_kernel (pins k1) (kmalloced k1) (mm_users k1) (copied k1 ++ new2)), new1, new2.
  split; [exact Hrun1 |]. split; [exact Hrun2 |].
  cbn [pins copied k1]. rewrite <- app_assoc.
  repeat split; auto; lia.
Qed.

Lemma write_continues_where_it_ended_witness :
  exists m1 k1 m2 k2 new1 new2,
    kdbus_buffer_map_write 4096 (sender_mem 65536 5000)
      (mk_map (Some [11; 12; 13]) 3 0 4000) 65536 100 idle_kernel = Some ((0, m1), k1) /\
    kdbus_buffer_map_write 4096 (sender_mem 65536 5000) m1 65636 4900 k1 =
      Some ((0, m2), k2) /\
    map_cur m1 * 4096 + map_pos m1 =
      map_cur (mk_map (Some [11; 12; 13]) 3 0 4000) * 4096
      + map_pos (mk_map (Some [11; 12; 13]) 3 0 4000) + 100 /\
    map_cur m2 * 4096 + map_pos m2 =
      map_cur (mk_map (Some [11; 12; 13]) 3 0 4000) * 4096
      + map_pos (mk_map (Some [11; 12; 13]) 3 0 4000) + 100 + 4900 /\
    copied k2 = copied idle_kernel ++ new1 ++ new2 /\
    fold_right Z.add 0 (map (fun c => Z.of_nat (length (cp_data c))) new1) = 100 /\
    fold_right Z.add 0 (map (fun c => Z.of_nat (length (cp_data c))) new2) = 4900 /\
    pins k2 = pins idle_kernel.
Proof.
  apply (write_continues_where_it_ended 4096 (sender_mem 65536 5000)
           (mk_map (Some [11; 12; 13]) 3 0 4000) [11; 12; 13] 65536 100 65636 4900
           idle_kernel).
  - unfold SIZE_MAX. lia.
  - reflexivity.
  - unfold SIZE_MAX. simpl. lia.
  - simpl. lia.
  - simpl. lia.
  - unfold SIZE_MAX. lia.
  - unfold SIZE_MAX. lia.
  - simpl. lia.
  - vm_compute. reflexivity.
  - vm_compute. reflexivity.
Defined.
